(** * SatTrack: the browser client of the satellite tracker

    A shallow embedding of [src/sattrack/interface/script.js] and the
    properties its specification states about it.

    The script is a set of callbacks run one at a time by the browser's
    event loop over a handful of global variables, an SVG drawing and a few
    text elements of the host page.  The embedding follows that shape:

    - [JS] models the part of the JavaScript runtime the script calls
      ([parseFloat], [Number.prototype.toFixed], number to string
      conversion, arithmetic on binary64 numbers);
    - [D3] models the part of the document the script draws on, with the
      calls into the d3 library kept as uninterpreted terms;
    - [SatTrack] holds the script itself: one Rocq function per JavaScript
      function or callback, in explicit state-passing style, and a [step]
      function that dispatches the events of the event loop. *)

From Stdlib Require Import ZArith Floats String Ascii List Bool Lia.
From Stdlib Require Import DecimalString.
Import ListNotations.

Set Warnings "-inexact-float".

(* ================================================================== *)
(** * The JavaScript runtime *)
(* ================================================================== *)

Module JS.

Local Open Scope string_scope.
Local Open Scope Z_scope.

(** A JavaScript Number is an IEEE 754 binary64 value. *)
Definition number : Set := float.
Bind Scope float_scope with number.

(** A string is a sequence of code units; the embedding keeps the code
    units below 256. *)

(** The scalar values a field of a JSON response can hold after
    [JSON.parse]; [JUndefined] is what reading an absent field gives. *)
Inductive value : Set :=
| JUndefined
| JNull
| JBool (b : bool)
| JNum (x : number)
| JStr (s : string).

(** ** Decimal literals to numbers *)

(** The Number value of [d * 10^e10] for a natural number [d]: the
    nearest binary64 value, ties to even.  A negative power of ten is
    divided out with 66 extra bits and a sticky bit, so that
    [binary_normalize] sees on which side of every rounding boundary the
    exact quotient lies.  The two guards only cut off exponents whose
    result is already decided (above [2^1024], below [2^-1075]). *)
Definition of_decimal (neg : bool) (d e10 : Z) : number :=
  if d <=? 0 then (if neg then neg_zero else PrimFloat.zero)
  else if 343 <? e10 then (if neg then neg_infinity else infinity)
  else if Z.log2 d + 1 + 3 * e10 <? -1080 then (if neg then neg_zero else PrimFloat.zero)
  else if 0 <=? e10 then
    SF2Prim (binary_normalize prec emax (if neg then - (d * 10 ^ e10) else d * 10 ^ e10) 0 neg)
  else
    let den := 10 ^ (- e10) in
    let k := Z.max 0 (Z.log2 den + 66 - Z.log2 d) in
    let (q, r) := Z.div_eucl (d * 2 ^ k) den in
    let m := 2 * q + (if r =? 0 then 0 else 1) in
    SF2Prim (binary_normalize prec emax (if neg then - m else m) (- k - 1) neg).

(** ** Reading a [StrDecimalLiteral] *)

Definition digit_of (c : ascii) : option Z :=
  let n := Z.of_nat (nat_of_ascii c) in
  if (48 <=? n) && (n <=? 57) then Some (n - 48) else None.

(** [StrWhiteSpaceChar] among the code units below 256: TAB, LF, VT, FF,
    CR, SP and NBSP. *)
Definition is_white_space (c : ascii) : bool :=
  let n := Z.of_nat (nat_of_ascii c) in
  ((9 <=? n) && (n <=? 13)) || (n =? 32) || (n =? 160).

Fixpoint skip_white_space (s : string) : string :=
  match s with
  | String c s' => if is_white_space c then skip_white_space s' else s
  | EmptyString => s
  end.

(** [read_digits s acc cnt]: the longest run of decimal digits at the
    head of [s], accumulated on [acc]; returns the value, the number of
    digits read and the rest of the string. *)
Fixpoint read_digits (s : string) (acc : Z) (cnt : Z) : Z * Z * string :=
  match s with
  | String c s' =>
      match digit_of c with
      | Some v => read_digits s' (10 * acc + v) (cnt + 1)
      | None => (acc, cnt, s)
      end
  | EmptyString => (acc, cnt, s)
  end.

(** [ExponentPart]: [e] or [E], an optional sign and at least one digit;
    when the digits are missing the exponent is not part of the longest
    literal prefix and counts as 0. *)
Definition read_exponent (s : string) : Z :=
  match s with
  | String c s' =>
      if (Ascii.eqb c "e" || Ascii.eqb c "E")%char then
        let '(sgn, s'') :=
          match s' with
          | String "-" t => (true, t)
          | String "+" t => (false, t)
          | _ => (false, s')
          end in
        let '(v, cnt, _) := read_digits s'' 0 0 in
        if cnt =? 0 then 0 else if sgn then - v else v
      else 0
  | EmptyString => 0
  end.

(** The unsigned part of a literal: [Infinity], or digits with an
    optional fraction and exponent.  [None] when no prefix is a
    literal. *)
Definition read_unsigned (neg : bool) (s : string) : option number :=
  if String.prefix "Infinity" s then Some (if neg then neg_infinity else infinity)
  else
    let '(ip, ic, r1) := read_digits s 0 0 in
    match r1 with
    | String "." r2 =>
        let '(m, fc, r3) := read_digits r2 ip 0 in
        if (ic =? 0) && (fc =? 0) then None
        else Some (of_decimal neg m (read_exponent r3 - fc))
    | _ =>
        if ic =? 0 then None
        else Some (of_decimal neg ip (read_exponent r1))
    end.

(** [parseFloat] on a string: leading white space is dropped, the longest
    prefix that is a [StrDecimalLiteral] is converted, and [NaN] is the
    answer when there is none. *)
Definition parseFloat_string (s : string) : number :=
  let t := skip_white_space s in
  let r :=
    match t with
    | String "-" t' => read_unsigned true t'
    | String "+" t' => read_unsigned false t'
    | _ => read_unsigned false t
    end in
  match r with
  | Some x => x
  | None => nan
  end.

(** ** Numbers to strings *)

(** The decimal digits of a natural number; ["0"] for 0. *)
Definition digits (n : Z) : string :=
  NilZero.string_of_uint (N.to_uint (Z.to_N n)).

Fixpoint zeros (n : nat) : string :=
  match n with
  | O => ""
  | S n' => "0" ++ zeros n'
  end.

(** A positive rational [num / den] divided by [10^t]. *)
Definition scale10 (num den t : Z) : Z * Z :=
  if 0 <=? t then (num, den * 10 ^ t) else (num * 10 ^ (- t), den).

(** The [n] with [10^(n-1) <= num/den < 10^n], found from the estimate
    [t] by stepping up or down. *)
Fixpoint decimal_exponent (fuel : nat) (num den t : Z) : Z :=
  match fuel with
  | O => t
  | S fuel' =>
      let (a, b) := scale10 num den t in
      if a <? b then decimal_exponent fuel' num den (t - 1)
      else if 10 * b <=? a then decimal_exponent fuel' num den (t + 1)
      else t + 1
  end.

(** The shortest decimal [s * 10^(n-k)], [s] of [k] digits, whose Number
    value is [x = num/den > 0]: for [k = 1, 2, ...] the two [k]-digit
    decimals around [x] are converted back; of those that give [x] again
    the one nearer to [x] wins, the even one on a tie. *)
Fixpoint shortest (fuel : nat) (x : number) (num den n k : Z) : Z * Z * Z :=
  let (a, b) := scale10 num den (n - k) in
  let lo := a / b in
  let hi := lo + 1 in
  let ok_lo := PrimFloat.eqb (of_decimal false lo (n - k)) x in
  let ok_hi := PrimFloat.eqb (of_decimal false hi (n - k)) x in
  let r := a mod b in
  let pick_lo := ok_lo && (negb ok_hi || (2 * r <? b) || ((2 * r =? b) && Z.even lo)) in
  if pick_lo then (lo, k, n)
  else if ok_hi then
    (if hi =? 10 ^ k then (hi / 10, k, n + 1) else (hi, k, n))
  else
    match fuel with
    | O => (lo, k, n)
    | S fuel' => shortest fuel' x num den n (k + 1)
    end.

(** [Number::toString] in radix 10. *)
Definition format_shortest (s k n : Z) : string :=
  let ds := digits s in
  if (k <=? n) && (n <=? 21) then ds ++ zeros (Z.to_nat (n - k))
  else if (0 <? n) && (n <=? 21) then
    substring 0 (Z.to_nat n) ds ++ "." ++ substring (Z.to_nat n) (Z.to_nat (k - n)) ds
  else if (-6 <? n) && (n <=? 0) then "0." ++ zeros (Z.to_nat (- n)) ++ ds
  else
    let e := n - 1 in
    let es := (if e <? 0 then "-" else "+") ++ digits (Z.abs e) in
    if k =? 1 then ds ++ "e" ++ es
    else substring 0 1 ds ++ "." ++ substring 1 (Z.to_nat (k - 1)) ds ++ "e" ++ es.

(** The exact value of a finite non-zero number as a fraction. *)
Definition fraction_of (m : positive) (e : Z) : Z * Z :=
  if 0 <=? e then (Z.pos m * 2 ^ e, 1) else (Z.pos m, 2 ^ (- e)).

Definition to_string (x : number) : string :=
  match Prim2SF x with
  | S754_nan => "NaN"
  | S754_zero _ => "0"
  | S754_infinity sg => (if sg then "-" else "") ++ "Infinity"
  | S754_finite sg m e =>
      let (num, den) := fraction_of m e in
      let n := decimal_exponent 8 num den (((Z.log2 num - Z.log2 den) * 301) / 1000) in
      let '(s, k, n') := shortest 17 (abs x) num den n 1 in
      (if sg then "-" else "") ++ format_shortest s k n'
  end.

(** [Number.prototype.toFixed(f)] for [0 <= f <= 100]: [n] is the
    integer nearest to [x * 10^f], the larger one on a tie; numbers of
    magnitude [10^21] and more, and the non-finite ones, are printed by
    [to_string]. *)
Definition toFixed (x : number) (f : nat) : string :=
  match Prim2SF x with
  | S754_nan => "NaN"
  | S754_infinity _ => to_string x
  | S754_zero _ => if Nat.eqb f 0 then "0" else "0." ++ zeros f
  | S754_finite sg m e =>
      let (num, den) := fraction_of m e in
      if 10 ^ 21 * den <=? num then to_string x
      else
        let n := (2 * 10 ^ Z.of_nat f * num + den) / (2 * den) in
        let ds := digits n in
        let ds := zeros (S f - String.length ds)%nat ++ ds in
        let k := String.length ds in
        (if sg then "-" else "") ++
        (if Nat.eqb f 0 then ds
         else substring 0 (k - f)%nat ds ++ "." ++ substring (k - f)%nat f ds)
  end.

(** ** The operations of the script on values *)

(** [ToString] on the scalar values. *)
Definition ToString (v : value) : string :=
  match v with
  | JUndefined => "undefined"
  | JNull => "null"
  | JBool b => if b then "true" else "false"
  | JNum x => to_string x
  | JStr s => s
  end.

(** [parseFloat(v)]: the argument is converted to a string first. *)
Definition parseFloat (v : value) : number :=
  parseFloat_string (ToString v).

(** [isNaN] on a number. *)
Definition isNaN (x : number) : bool := is_nan x.

End JS.

(* ================================================================== *)
(** * The drawing: the SVG document and the d3 objects *)
(* ================================================================== *)

Module D3.

Import JS.
Local Open Scope string_scope.

(** A position is the two-element array [[lon, lat]]. *)
Definition point : Set := (number * number)%type.

(** The state of the object [d3.geo.orthographic()] returns, as the
    script configures it.  [rotate] holds the array last given to
    [.rotate]; a fresh projection has the rotation [[0, 0, 0]]. *)
Record projection : Set := {
  scale : number;
  translate : point;
  clipAngle : number;
  precision : number;
  rotate : list number
}.

Definition with_rotate (r : list number) (p : projection) : projection :=
  {| scale := scale p; translate := translate p; clipAngle := clipAngle p;
     precision := precision p; rotate := r |}.

(** What the script binds to elements as their datum.  A [LineString]
    holds the coordinates as a value: in the script the datum shares the
    array [$trajectory] points to until that variable is given a new
    array, and the only reader of the datum, [plotPoints], binds the
    current array anew before it draws. *)
Inductive geometry : Set :=
| Sphere                                   (* [{type: "Sphere"}] *)
| Graticule                                (* [d3.geo.graticule()] *)
| Land                                     (* [topojson.feature(world, world.objects.land)] *)
| Boundaries                               (* [topojson.mesh(world, world.objects.countries, ...)] *)
| LineString (coordinates : list point)    (* [{type: "LineString", coordinates: ...}] *)
| Position (p : point).                    (* [[lon, lat]] *)

(** The value of an attribute.  The results of calls into d3 stay
    uninterpreted: [PathData p g] is the string [$path(g)] computed while
    the projection was in state [p], and [Projected p pt k] is
    [$projection(pt)[k]] in that state. *)
Inductive attr_value : Set :=
| Text (s : string)
| Num (x : number)
| PathData (p : projection) (g : option geometry)
| Projected (p : projection) (pt : point) (k : nat).

(** An element below the [svg] root.  The elements are kept in document
    order; [parent] is the tag of the element it was appended to. *)
Record element : Set := {
  tag : string;
  parent : string;
  attrs : list (string * attr_value);
  datum : option geometry
}.

Definition new_element (parent tag : string) : element :=
  {| tag := tag; parent := parent; attrs := []; datum := None |}.

Fixpoint get_attr (name : string) (l : list (string * attr_value)) : option attr_value :=
  match l with
  | [] => None
  | (k, v) :: l' => if String.eqb k name then Some v else get_attr name l'
  end.

(** [setAttribute]: an attribute that is present keeps its place. *)
Fixpoint put_attr (name : string) (v : attr_value) (l : list (string * attr_value))
  : list (string * attr_value) :=
  match l with
  | [] => [(name, v)]
  | (k, w) :: l' => if String.eqb k name then (k, v) :: l' else (k, w) :: put_attr name v l'
  end.

(** [selection.attr(name, f)] and [selection.datum(g)] on one element;
    [f] is given the element for its datum. *)
Definition attr (name : string) (f : element -> attr_value) (el : element) : element :=
  {| tag := tag el; parent := parent el;
     attrs := put_attr name (f el) (attrs el); datum := datum el |}.

Definition bind (g : geometry) (el : element) : element :=
  {| tag := tag el; parent := parent el; attrs := attrs el; datum := Some g |}.

(** The simple selectors the script uses, and groups of them. *)
Inductive selector : Set :=
| ByTag (t : string)
| ByClass (c : string)
| ById (i : string).

Definition has_text (name : string) (c : string) (el : element) : bool :=
  match get_attr name (attrs el) with
  | Some (Text s) => String.eqb s c
  | _ => false
  end.

Definition matches (sel : selector) (el : element) : bool :=
  match sel with
  | ByTag t => String.eqb (tag el) t
  | ByClass c => has_text "class" c el
  | ById i => has_text "id" i el
  end.

Definition matches_any (group : list selector) (el : element) : bool :=
  existsb (fun sel => matches sel el) group.

(** [selectAll(group)] followed by a change of every selected element. *)
Definition on_all (group : list selector) (f : element -> element)
  (nodes : list element) : list element :=
  map (fun el => if matches_any group el then f el else el) nodes.

Definition selectAll (group : list selector) (nodes : list element) : list element :=
  filter (matches_any group) nodes.

(** [insert(tag, before)]: the new element goes in front of the first
    element that matches, and to the end when none does. *)
Fixpoint insert_before (group : list selector) (el : element) (nodes : list element)
  : list element :=
  match nodes with
  | [] => [el]
  | n :: nodes' =>
      if matches_any group n then el :: n :: nodes'
      else n :: insert_before group el nodes'
  end.

(** [selectAll(group).data([g])] where an element matches: the first
    one takes the datum. *)
Fixpoint bind_first (group : list selector) (g : geometry) (nodes : list element)
  : list element :=
  match nodes with
  | [] => []
  | n :: nodes' =>
      if matches_any group n then bind g n :: nodes'
      else n :: bind_first group g nodes'
  end.

(** The texts and containers of the host page the script writes to, and
    the drawing it builds. *)
Record document : Set := {
  svg_attrs : list (string * attr_value);  (* the [svg] element itself *)
  nodes : list element;                    (* what is below it *)
  ui_width : option string;                (* [width] of the [.ui] element *)
  frame_height : option string;            (* style height of the frame element *)
  text_lon : string;                       (* text of [#lon] *)
  text_lat : string;                       (* text of [#lat] *)
  text_azi : string;                       (* text of [#azi] *)
  text_alt : string;                       (* text of [#alt] *)
  text_time : string;                      (* text of [#time] *)
  log_children : list string               (* children of [#log], first on top *)
}.

(** Field updates. *)
Definition set_svg_attrs (x : list (string * attr_value)) (d : document) : document :=
  {| svg_attrs := x; nodes := nodes d; ui_width := ui_width d;
     frame_height := frame_height d; text_lon := text_lon d;
     text_lat := text_lat d; text_azi := text_azi d;
     text_alt := text_alt d; text_time := text_time d;
     log_children := log_children d |}.

Definition set_nodes (x : list element) (d : document) : document :=
  {| svg_attrs := svg_attrs d; nodes := x; ui_width := ui_width d;
     frame_height := frame_height d; text_lon := text_lon d;
     text_lat := text_lat d; text_azi := text_azi d;
     text_alt := text_alt d; text_time := text_time d;
     log_children := log_children d |}.

Definition set_ui_width (x : option string) (d : document) : document :=
  {| svg_attrs := svg_attrs d; nodes := nodes d; ui_width := x;
     frame_height := frame_height d; text_lon := text_lon d;
     text_lat := text_lat d; text_azi := text_azi d;
     text_alt := text_alt d; text_time := text_time d;
     log_children := log_children d |}.

Definition set_frame_height (x : option string) (d : document) : document :=
  {| svg_attrs := svg_attrs d; nodes := nodes d; ui_width := ui_width d;
     frame_height := x; text_lon := text_lon d; text_lat := text_lat d;
     text_azi := text_azi d; text_alt := text_alt d;
     text_time := text_time d; log_children := log_children d |}.

Definition set_text_lon (x : string) (d : document) : document :=
  {| svg_attrs := svg_attrs d; nodes := nodes d; ui_width := ui_width d;
     frame_height := frame_height d; text_lon := x; text_lat := text_lat d;
     text_azi := text_azi d; text_alt := text_alt d;
     text_time := text_time d; log_children := log_children d |}.

Definition set_text_lat (x : string) (d : document) : document :=
  {| svg_attrs := svg_attrs d; nodes := nodes d; ui_width := ui_width d;
     frame_height := frame_height d; text_lon := text_lon d; text_lat := x;
     text_azi := text_azi d; text_alt := text_alt d;
     text_time := text_time d; log_children := log_children d |}.

Definition set_text_azi (x : string) (d : document) : document :=
  {| svg_attrs := svg_attrs d; nodes := nodes d; ui_width := ui_width d;
     frame_height := frame_height d; text_lon := text_lon d;
     text_lat := text_lat d; text_azi := x; text_alt := text_alt d;
     text_time := text_time d; log_children := log_children d |}.

Definition set_text_alt (x : string) (d : document) : document :=
  {| svg_attrs := svg_attrs d; nodes := nodes d; ui_width := ui_width d;
     frame_height := frame_height d; text_lon := text_lon d;
     text_lat := text_lat d; text_azi := text_azi d; text_alt := x;
     text_time := text_time d; log_children := log_children d |}.

Definition set_text_time (x : string) (d : document) : document :=
  {| svg_attrs := svg_attrs d; nodes := nodes d; ui_width := ui_width d;
     frame_height := frame_height d; text_lon := text_lon d;
     text_lat := text_lat d; text_azi := text_azi d;
     text_alt := text_alt d; text_time := x;
     log_children := log_children d |}.

Definition set_log_children (x : list string) (d : document) : document :=
  {| svg_attrs := svg_attrs d; nodes := nodes d; ui_width := ui_width d;
     frame_height := frame_height d; text_lon := text_lon d;
     text_lat := text_lat d; text_azi := text_azi d;
     text_alt := text_alt d; text_time := text_time d; log_children := x |}.

End D3.

(* ================================================================== *)
(** * The script *)
(* ================================================================== *)

(** The JSON object the status endpoint answers with, after [JSON.parse],
    when it has the shape of the status interface: four fields that are
    numbers or strings holding one (whatever scalar is there is handed to
    [parseFloat]), the time as a string, the number of seconds to the next
    poll and the array of new log lines.  An answer that lacks the array is
    an [Answer.t], further down. *)
Module Response.

Record t : Set := {
  lon : JS.value;
  lat : JS.value;
  az : JS.value;
  alt : JS.value;
  time : string;
  interval : JS.number;
  log : list string
}.

End Response.

Module SatTrack.

Import JS D3.
Local Open Scope string_scope.
Local Open Scope list_scope.
Local Open Scope float_scope.

(** What the script reads from [window]. *)
Record window : Set := {
  innerWidth : number;
  outerHeight : number;
  href : string                            (* [window.location.href] *)
}.

(** What a callback asks of the browser: a request, a timer that will
    call [getStatus], a line on the console. *)
Inductive effect : Set :=
| Get (url : string)
| SetTimeout (delay : number)
| ConsoleLog (msg : string).

(** The global variables of the script ([$lon] is [lon], and so on), the
    document, and the effects asked for so far, oldest first.  [$svg],
    [$log] and the five labels are references into [doc]; [$path] is the
    path generator over [projection]; [loop_i] is the global [i] that
    [appendLog] counts with. *)
Record state : Set := {
  win : window;
  width : number;
  height : number;
  lon : number;
  lat : number;
  az : number;
  alt : number;
  time : string;
  stop_flag : bool;
  trajectory : list point;
  loop_i : option nat;
  projection : D3.projection;
  doc : document;
  out : list effect
}.

Definition set_lon (x : number) (s : state) : state :=
  {| win := win s; width := width s; height := height s; lon := x;
     lat := lat s; az := az s; alt := alt s; time := time s;
     stop_flag := stop_flag s; trajectory := trajectory s;
     loop_i := loop_i s; projection := projection s; doc := doc s;
     out := out s |}.

Definition set_lat (x : number) (s : state) : state :=
  {| win := win s; width := width s; height := height s; lon := lon s;
     lat := x; az := az s; alt := alt s; time := time s;
     stop_flag := stop_flag s; trajectory := trajectory s;
     loop_i := loop_i s; projection := projection s; doc := doc s;
     out := out s |}.

Definition set_az (x : number) (s : state) : state :=
  {| win := win s; width := width s; height := height s; lon := lon s;
     lat := lat s; az := x; alt := alt s; time := time s;
     stop_flag := stop_flag s; trajectory := trajectory s;
     loop_i := loop_i s; projection := projection s; doc := doc s;
     out := out s |}.

Definition set_alt (x : number) (s : state) : state :=
  {| win := win s; width := width s; height := height s; lon := lon s;
     lat := lat s; az := az s; alt := x; time := time s;
     stop_flag := stop_flag s; trajectory := trajectory s;
     loop_i := loop_i s; projection := projection s; doc := doc s;
     out := out s |}.

Definition set_time (x : string) (s : state) : state :=
  {| win := win s; width := width s; height := height s; lon := lon s;
     lat := lat s; az := az s; alt := alt s; time := x;
     stop_flag := stop_flag s; trajectory := trajectory s;
     loop_i := loop_i s; projection := projection s; doc := doc s;
     out := out s |}.

Definition set_stop_flag (x : bool) (s : state) : state :=
  {| win := win s; width := width s; height := height s; lon := lon s;
     lat := lat s; az := az s; alt := alt s; time := time s;
     stop_flag := x; trajectory := trajectory s; loop_i := loop_i s;
     projection := projection s; doc := doc s; out := out s |}.

Definition set_trajectory (x : list point) (s : state) : state :=
  {| win := win s; width := width s; height := height s; lon := lon s;
     lat := lat s; az := az s; alt := alt s; time := time s;
     stop_flag := stop_flag s; trajectory := x; loop_i := loop_i s;
     projection := projection s; doc := doc s; out := out s |}.

Definition set_loop_i (x : option nat) (s : state) : state :=
  {| win := win s; width := width s; height := height s; lon := lon s;
     lat := lat s; az := az s; alt := alt s; time := time s;
     stop_flag := stop_flag s; trajectory := trajectory s; loop_i := x;
     projection := projection s; doc := doc s; out := out s |}.

Definition set_projection (x : D3.projection) (s : state) : state :=
  {| win := win s; width := width s; height := height s; lon := lon s;
     lat := lat s; az := az s; alt := alt s; time := time s;
     stop_flag := stop_flag s; trajectory := trajectory s;
     loop_i := loop_i s; projection := x; doc := doc s; out := out s |}.

Definition set_doc (x : document) (s : state) : state :=
  {| win := win s; width := width s; height := height s; lon := lon s;
     lat := lat s; az := az s; alt := alt s; time := time s;
     stop_flag := stop_flag s; trajectory := trajectory s;
     loop_i := loop_i s; projection := projection s; doc := x;
     out := out s |}.

Definition set_out (x : list effect) (s : state) : state :=
  {| win := win s; width := width s; height := height s; lon := lon s;
     lat := lat s; az := az s; alt := alt s; time := time s;
     stop_flag := stop_flag s; trajectory := trajectory s;
     loop_i := loop_i s; projection := projection s; doc := doc s;
     out := x |}.

Definition emit (e : effect) (s : state) : state :=
  set_out (out s ++ [e]) s.

Definition on_doc (f : document -> document) (s : state) : state :=
  set_doc (f (doc s)) s.

Definition on_nodes (f : list element -> list element) (s : state) : state :=
  on_doc (fun d => set_nodes (f (nodes d)) d) s.

(** [$path] applied to the datum of an element. *)
Definition path (s : state) (el : element) : attr_value :=
  PathData (projection s) (datum el).

(** ** Start-up *)

(** [setVariables]: the size of the drawing, the [svg] element, the
    initial values of the globals and the projection.  [page] is the
    document as the host page has it. *)
Definition setVariables (w : window) (page : document) : state :=
  let width := if outerHeight w <? innerWidth w
               then 0.45 * innerWidth w else 0.9 * innerWidth w in
  let height := width in
  {| win := w;
     width := width;
     height := height;
     lon := 0; lat := 0; az := 0; alt := 0;
     time := "";
     stop_flag := false;
     trajectory := [];
     loop_i := None;
     projection :=
       {| scale := width * 0.459;
          translate := (width / 2, height / 2);
          clipAngle := 90;
          precision := 1;
          rotate := [0; 0; 0] |};
     doc :=
       set_svg_attrs [("width", Num width); ("height", Num height)]
         (set_nodes []
            (set_ui_width (if innerWidth w <? outerHeight w
                           then Some "100%" else ui_width page) page));
     out := [] |}.

(** The listed attributes set one after the other on an element. *)
Definition with_attrs (l : list (string * attr_value)) (el : element) : element :=
  fold_left (fun el kv => attr (fst kv) (fun _ => snd kv) el) l el.

(** [drawMap] up to the request for the world file; what its callback
    draws is [world_loaded]. *)
Definition drawMap (s : state) : state :=
  let s := on_nodes (fun ns => ns ++ [new_element "svg" "defs"]) s in
  let s := on_nodes (fun ns => ns ++
             [attr "d" (path s)
                (with_attrs [("id", Text "sphere")]
                   (bind Sphere (new_element "defs" "path")))]) s in
  let s := on_nodes (fun ns => ns ++
             [with_attrs [("class", Text "stroke"); ("xlink:href", Text "#sphere")]
                (new_element "svg" "use")]) s in
  let s := on_nodes (fun ns => ns ++
             [with_attrs [("class", Text "fill"); ("xlink:href", Text "#sphere")]
                (new_element "svg" "use")]) s in
  let s := on_nodes (fun ns => ns ++
             [attr "d" (path s)
                (with_attrs [("class", Text "graticule")]
                   (bind Graticule (new_element "svg" "path")))]) s in
  let s := emit (Get "world-50m.json") s in
  on_doc (set_frame_height (Some (to_string (height s) ++ "px")%string)) s.

(** The callback of [d3.json] when the world file has arrived: land and
    boundaries go below the graticule, the trajectory path on top. *)
Definition world_loaded (s : state) : state :=
  let s := emit (ConsoleLog "World loaded") s in
  let s := on_nodes (insert_before [ByClass "graticule"]
             (attr "d" (path s)
                (with_attrs [("class", Text "land")]
                   (bind Land (new_element "svg" "path"))))) s in
  let s := on_nodes (insert_before [ByClass "graticule"]
             (attr "d" (path s)
                (with_attrs [("class", Text "boundary")]
                   (bind Boundaries (new_element "svg" "path"))))) s in
  on_nodes (fun ns => ns ++
    [with_attrs [("class", Text "trajectory")]
       (attr "d" (path s)
          (bind (LineString (trajectory s)) (new_element "svg" "path")))]) s.

(** [drawSat]: the data join of [[[$lon, $lat]]] with the circles.  A
    circle that is there takes the datum and nothing else; when there is
    none, one is appended and placed where the projection puts the
    datum. *)
Definition drawSat (s : state) : state :=
  let d := (lon s, lat s) in
  match selectAll [ByTag "circle"] (nodes (doc s)) with
  | [] =>
      on_nodes (fun ns => ns ++
        [with_attrs [("cx", Projected (projection s) d 0);
                     ("cy", Projected (projection s) d 1);
                     ("r", Text "8px");
                     ("fill", Text "red");
                     ("class", Text "satellite")]
           (bind (Position d) (new_element "svg" "circle"))]) s
  | _ :: _ => on_nodes (bind_first [ByTag "circle"] (Position d)) s
  end.

(** ** The poll loop and the redraw *)

(** [addTrajectory(lat, lon)]: [$trajectory.push([lon, lat])]. *)
Definition addTrajectory (lat lon : number) (s : state) : state :=
  set_trajectory (trajectory s ++ [(lon, lat)]) s.

(** [$log.prepend(html)] *)
Definition prepend (html : string) (s : state) : state :=
  on_doc (fun d => set_log_children (html :: log_children d) d) s.

(** The element [appendLog] makes of a log line. *)
Definition paragraph (entry : string) : string :=
  ("<p>" ++ entry ++ "</p>")%string.

(** [appendLog(log)]: the loop [for (i = 0; i < log.length; i++)] with
    [i] at the given index and [log] cut down to the entries from there
    on; the global [i] is left at [log.length]. *)
Fixpoint appendLog_from (i : nat) (log : list string) (s : state) : state :=
  match log with
  | [] => set_loop_i (Some i) s
  | entry :: log' =>
      appendLog_from (S i) log' (prepend (paragraph entry) s)
  end.

Definition appendLog (log : list string) (s : state) : state :=
  appendLog_from 0 log s.

(** The layers [rotateProjection] redraws. *)
Definition layers : list selector :=
  [ByClass "boundary"; ByClass "land"; ByClass "graticule";
   ByClass "fill"; ByClass "stroke"; ById "sphere"].

Definition rotateProjection (lat lon : number) (s : state) : state :=
  let s := set_projection (with_rotate [- lon; - lat] (projection s)) s in
  on_nodes (on_all layers (attr "d" (path s))) s.

Definition plotPoints (lat lon : number) (s : state) : state :=
  on_nodes (on_all [ByClass "trajectory"]
              (fun el => attr "d" (path s) (bind (LineString (trajectory s)) el))) s.

(** [getStatus] sends the request; the two callbacks follow. *)
Definition getStatus (s : state) : state :=
  emit (Get (href (win s) ++ "?status")%string) s.

(** The success callback of [$.getJSON]. *)
Definition status_success (data : Response.t) (s : state) : state :=
  let s := set_lon (parseFloat (Response.lon data)) s in
  let s := set_lat (parseFloat (Response.lat data)) s in
  let s := set_az (parseFloat (Response.az data)) s in
  let s := set_alt (parseFloat (Response.alt data)) s in
  let s := set_time (Response.time data) s in
  let s := addTrajectory (lat s) (lon s) s in
  let s := appendLog (Response.log data) s in
  let s := on_doc (set_text_lon (toFixed (lon s) 3)) s in
  let s := on_doc (set_text_lat (toFixed (lat s) 3)) s in
  let s := on_doc (set_text_azi (toFixed (az s) 3)) s in
  let s := on_doc (set_text_alt (toFixed (alt s) 3)) s in
  let s := on_doc (set_text_time (time s ++ " UTC")%string) s in
  let s := rotateProjection (lat s) (lon s) s in
  let s := plotPoints (lat s) (lon s) s in
  emit (SetTimeout (1000 * Response.interval data)) s.

(** The [.fail] callback. *)
Definition status_fail (s : state) : state :=
  let s := emit (SetTimeout 2000) s in
  let s := set_trajectory [] s in
  if negb (stop_flag s)
  then appendLog ["Server connection failed. Retrying in 2s."%string] s
  else s.

(** ** The buttons: the handlers [setClickListeners] installs *)

Definition startcomputing_click (s : state) : state :=
  emit (Get (href (win s) ++ "?startcomputing")%string) s.

Definition startcomputing_success (s : state) : state :=
  set_stop_flag false s.

Definition stopcomputing_click (s : state) : state :=
  let s := set_trajectory [] s in
  emit (Get (href (win s) ++ "?stopcomputing")%string) s.

Definition stopcomputing_success (s : state) : state :=
  set_stop_flag true s.

Definition starttracking_click (s : state) : state :=
  emit (Get (href (win s) ++ "?starttracking")%string) s.

Definition stoptracking_click (s : state) : state :=
  emit (Get (href (win s) ++ "?stoptracking")%string) s.

(** ** The event loop *)

(** The function given to [$(document).ready].  The console line comes
    first in the script; [setVariables] asks for nothing, so the order of
    [out] is the script's.  [setClickListeners] only installs the
    handlers above. *)
Definition ready (w : window) (page : document) : state :=
  let s := setVariables w page in
  let s := emit (ConsoleLog "Document Loaded") s in
  let s := drawMap s in
  let s := drawSat s in
  getStatus s.

(** What the browser can run next, one callback at a time. *)
Inductive event : Set :=
| StatusSuccess (data : Response.t)   (* the status request succeeded *)
| StatusFail                          (* it failed *)
| Timeout                             (* a timer set by [setTimeout] fires *)
| WorldLoaded                         (* the world file arrived *)
| WorldError                          (* it did not: the callback throws *)
| StartComputingClick
| StartComputingSuccess
| StopComputingClick
| StopComputingSuccess
| StartTrackingClick
| StopTrackingClick.

Definition step (s : state) (e : event) : state :=
  match e with
  | StatusSuccess data => status_success data s
  | StatusFail => status_fail s
  | Timeout => getStatus s
  | WorldLoaded => world_loaded s
  | WorldError => s
  | StartComputingClick => startcomputing_click s
  | StartComputingSuccess => startcomputing_success s
  | StopComputingClick => stopcomputing_click s
  | StopComputingSuccess => stopcomputing_success s
  | StartTrackingClick => starttracking_click s
  | StopTrackingClick => stoptracking_click s
  end.

Definition run (s : state) (es : list event) : state :=
  fold_left step es s.

End SatTrack.

(** An answer as the success callback can receive it: the object of the
    status interface, except that [log] may be missing ([undefined] or
    [null] in the script). *)
Module Answer.

Record t : Set := {
  lon : JS.value;
  lat : JS.value;
  az : JS.value;
  alt : JS.value;
  time : string;
  interval : JS.number;
  log : option (list string)
}.

End Answer.

(* ================================================================== *)
(** * Properties *)
(* ================================================================== *)

Import JS D3 SatTrack.
Local Open Scope string_scope.
Local Open Scope list_scope.

Arguments parseFloat : simpl never.
Arguments toFixed : simpl never.
Arguments to_string : simpl never.

(** ** Sample inputs *)

Definition sample_window : window :=
  {| innerWidth := 1000; outerHeight := 500; href := "http://tracker/" |}.

Definition empty_page : document :=
  {| svg_attrs := []; nodes := []; ui_width := None; frame_height := None;
     text_lon := ""; text_lat := ""; text_azi := ""; text_alt := "";
     text_time := ""; log_children := [] |}.

Definition sample_response : Response.t :=
  {| Response.lon := JNum 20; Response.lat := JNum 10;
     Response.az := JStr "135.5"; Response.alt := JNum 408;
     Response.time := "2016-03-01 12:00:00"; Response.interval := 5;
     Response.log := ["a"; "b"] |}.

(** ** Vocabulary *)

(** The five texts the success callback writes. *)
Definition labels (s : state) : string * string * string * string * string :=
  (text_lon (doc s), text_lat (doc s), text_azi (doc s), text_alt (doc s),
   text_time (doc s)).

(** [polls n data s]: the success callback run [n] times on the same
    response. *)
Fixpoint polls (n : nat) (data : Response.t) (s : state) : state :=
  match n with
  | O => s
  | S n' => step (polls n' data s) (StatusSuccess data)
  end.

(** The stop command as the specification has it: when its answer
    arrives, the flag is set and the trajectory is empty. *)
Definition stop_answer_empties (s : state) : Prop :=
  stop_flag (step s StopComputingSuccess) = true
  /\ trajectory (step s StopComputingSuccess) = [].

(** The lesser of two numbers. *)
Definition lesser (x y : number) : number :=
  if (x <? y)%float then x else y.

(** The side of the square as the specification has it: the lesser of 90%
    of the viewport width and 45% of the viewport height. *)
Definition spec_side (w : window) : number :=
  lesser (0.9 * innerWidth w) (0.45 * outerHeight w).

(** A field [parseFloat] makes NaN of, and a point with a NaN in it. *)
Definition unparseable (v : value) : Prop := isNaN (parseFloat v) = true.

Definition holds_NaN (p : point) : bool := isNaN (fst p) || isNaN (snd p).

(** The specification's reading: whichever of the four fields is not a
    number, the point that is appended holds a NaN. *)
Definition unparseable_gives_NaN_point (data : Response.t) (s : state) : Prop :=
  unparseable (Response.lon data) \/ unparseable (Response.lat data) \/
  unparseable (Response.az data) \/ unparseable (Response.alt data) ->
  exists p, trajectory (step s (StatusSuccess data)) = trajectory s ++ [p]
            /\ holds_NaN p = true.

(** A response none of whose four fields is a number. *)
Definition unreadable_response : Response.t :=
  {| Response.lon := JStr "east"; Response.lat := JNull;
     Response.az := JUndefined; Response.alt := JStr "";
     Response.time := "2016-03-01 12:00:00"; Response.interval := 5;
     Response.log := [] |}.

(** The circles of the drawing, and where a circle sits. *)
Definition is_circle (el : element) : bool := matches_any [ByTag "circle"] el.

Definition circles (s : state) : list element :=
  filter is_circle (nodes (doc s)).

Definition position (el : element) : option attr_value * option attr_value :=
  (get_attr "cx" (attrs el), get_attr "cy" (attrs el)).

(** The marker as [drawSat] draws it at start-up, under the projection [p]
    of that moment and for the position [[0, 0]]. *)
Definition marker (p : D3.projection) : element :=
  {| tag := "circle"; parent := "svg";
     attrs := [("cx", Projected p (0, 0)%float 0);
               ("cy", Projected p (0, 0)%float 1);
               ("r", Text "8px"); ("fill", Text "red");
               ("class", Text "satellite")];
     datum := Some (Position (0, 0)%float) |}.

(** A change of an element that keeps its tag and its [cx] and [cy]. *)
Definition keeps_place (f : element -> element) : Prop :=
  forall el, tag (f el) = tag el /\ position (f el) = position el.

(** What a callback asks of the browser, read off the event alone; [h] is
    [window.location.href]. *)
Definition asks (h : string) (e : event) : list effect :=
  match e with
  | StatusSuccess data => [SetTimeout (1000 * Response.interval data)]
  | StatusFail => [SetTimeout 2000]
  | Timeout => [Get (h ++ "?status")%string]
  | WorldLoaded => [ConsoleLog "World loaded"]
  | WorldError => []
  | StartComputingClick => [Get (h ++ "?startcomputing")%string]
  | StartComputingSuccess => []
  | StopComputingClick => [Get (h ++ "?stopcomputing")%string]
  | StopComputingSuccess => []
  | StartTrackingClick => [Get (h ++ "?starttracking")%string]
  | StopTrackingClick => [Get (h ++ "?stoptracking")%string]
  end.

(** The delays of the timers among some effects, and the status requests
    among them. *)
Definition timers (l : list effect) : list number :=
  flat_map (fun eff => match eff with SetTimeout d => [d] | _ => [] end) l.

Definition status_requests (h : string) (l : list effect) : list effect :=
  filter (fun eff => match eff with
                     | Get u => String.eqb u (h ++ "?status")%string
                     | _ => false
                     end) l.

(** The answers to status requests and the firings of timers in a run. *)
Definition is_answer (e : event) : bool :=
  match e with StatusSuccess _ | StatusFail => true | _ => false end.

Definition is_timeout (e : event) : bool :=
  match e with Timeout => true | _ => false end.

Definition is_success (e : event) : bool :=
  match e with StatusSuccess _ => true | _ => false end.

(** The events that assign a new, empty array to [$trajectory], and the
    positions the successful polls of a run report. *)
Definition clears (e : event) : bool :=
  match e with StatusFail | StopComputingClick => true | _ => false end.

Definition fix_of (data : Response.t) : point :=
  (parseFloat (Response.lon data), parseFloat (Response.lat data)).

Definition fixes (es : list event) : list point :=
  flat_map (fun e => match e with StatusSuccess data => [fix_of data] | _ => [] end) es.

(** What an event assigns to [$stop_flag], if anything. *)
Definition flag_of (e : event) : option bool :=
  match e with
  | StartComputingSuccess => Some false
  | StopComputingSuccess => Some true
  | _ => None
  end.

(** The lines a callback puts on top of the log, the newest first. *)
Definition lines (s : state) (e : event) : list string :=
  match e with
  | StatusSuccess data => rev (map paragraph (Response.log data))
  | StatusFail =>
      if stop_flag s then []
      else [paragraph "Server connection failed. Retrying in 2s."]
  | _ => []
  end.

(** What the page shows of the satellite: the five globals, the five
    labels and the projection; and what a response makes of it. *)
Definition view (s : state)
  : number * number * number * number * string
    * (string * string * string * string * string) * D3.projection :=
  (lon s, lat s, az s, alt s, time s, labels s, projection s).

Definition view_of (data : Response.t) (p : D3.projection)
  : number * number * number * number * string
    * (string * string * string * string * string) * D3.projection :=
  let lo := parseFloat (Response.lon data) in
  let la := parseFloat (Response.lat data) in
  let a := parseFloat (Response.az data) in
  let h := parseFloat (Response.alt data) in
  (lo, la, a, h, Response.time data,
   (toFixed lo 3, toFixed la 3, toFixed a 3, toFixed h 3,
    (Response.time data ++ " UTC")%string),
   with_rotate [(- lo)%float; (- la)%float] p).

(** Everything a redraw selects: the layers and the trajectory path. *)
Definition redrawn : list selector := layers ++ [ByClass "trajectory"].

(** An element is up to date under the projection [p] when it has no [d],
    or its [d] is the path of its datum under [p] and a redraw selects
    it. *)
Definition up_to_date (p : D3.projection) (el : element) : Prop :=
  match get_attr "d" (attrs el) with
  | None => True
  | Some v => v = PathData p (datum el) /\ matches_any redrawn el = true
  end.

(** A trajectory path shows the trail of [s] when its datum is the line
    through [$trajectory] and its [d] the path of it under the
    projection. *)
Definition shows_trail (s : state) (el : element) : Prop :=
  if matches (ByClass "trajectory") el
  then datum el = Some (LineString (trajectory s))
       /\ get_attr "d" (attrs el) =
            Some (PathData (projection s) (Some (LineString (trajectory s))))
  else True.

(** The three paths the callback of the world file draws. *)
Definition land_path (p : D3.projection) : element :=
  {| tag := "path"; parent := "svg";
     attrs := [("class", Text "land"); ("d", PathData p (Some Land))];
     datum := Some Land |}.

Definition boundary_path (p : D3.projection) : element :=
  {| tag := "path"; parent := "svg";
     attrs := [("class", Text "boundary"); ("d", PathData p (Some Boundaries))];
     datum := Some Boundaries |}.

Definition trail_path (p : D3.projection) (tr : list point) : element :=
  {| tag := "path"; parent := "svg";
     attrs := [("d", PathData p (Some (LineString tr))); ("class", Text "trajectory")];
     datum := Some (LineString tr) |}.

(** The circle [drawSat] appends, for the position [d]. *)
Definition marker_at (p : D3.projection) (d : point) : element :=
  {| tag := "circle"; parent := "svg";
     attrs := [("cx", Projected p d 0); ("cy", Projected p d 1);
               ("r", Text "8px"); ("fill", Text "red");
               ("class", Text "satellite")];
     datum := Some (Position d) |}.

(** The projection as [setVariables] configures it. *)
Definition start_projection (w : window) : D3.projection :=
  let side := (if outerHeight w <? innerWidth w
               then 0.45 * innerWidth w else 0.9 * innerWidth w)%float in
  {| scale := (side * 0.459)%float; translate := (side / 2, side / 2)%float;
     clipAngle := 90%float; precision := 1%float; rotate := [0; 0; 0]%float |}.

(** How a callback ends: it returns, or an exception leaves it half way;
    either way the state is what the statements that ran made of it. *)
Inductive outcome : Set :=
| Returned (s : state)
| Threw (s : state).

(** An answer that has its log array, as a response of the interface. *)
Definition with_log (a : Answer.t) (l : list string) : Response.t :=
  {| Response.lon := Answer.lon a; Response.lat := Answer.lat a;
     Response.az := Answer.az a; Response.alt := Answer.alt a;
     Response.time := Answer.time a; Response.interval := Answer.interval a;
     Response.log := l |}.

(** The success callback of [$.getJSON] on any answer.  Without a log
    array [log.length] in [appendLog] is a TypeError: the callback ends
    there, after the point has been pushed and before the labels, the
    rotation and [setTimeout]. *)
Definition status_callback (a : Answer.t) (s : state) : outcome :=
  let s := set_lon (parseFloat (Answer.lon a)) s in
  let s := set_lat (parseFloat (Answer.lat a)) s in
  let s := set_az (parseFloat (Answer.az a)) s in
  let s := set_alt (parseFloat (Answer.alt a)) s in
  let s := set_time (Answer.time a) s in
  let s := addTrajectory (lat s) (lon s) s in
  match Answer.log a with
  | None => Threw s
  | Some l =>
      let s := appendLog l s in
      let s := on_doc (set_text_lon (toFixed (lon s) 3)) s in
      let s := on_doc (set_text_lat (toFixed (lat s) 3)) s in
      let s := on_doc (set_text_azi (toFixed (az s) 3)) s in
      let s := on_doc (set_text_alt (toFixed (alt s) 3)) s in
      let s := on_doc (set_text_time (time s ++ " UTC")%string) s in
      let s := rotateProjection (lat s) (lon s) s in
      let s := plotPoints (lat s) (lon s) s in
      Returned (emit (SetTimeout (1000 * Answer.interval a)) s)
  end.

(** The specification's reading on any answer: whichever of the four
    fields is not a number, the callback returns, a timer is set and the
    point that is appended holds a NaN. *)
Definition unparseable_still_completes (a : Answer.t) (s : state) : Prop :=
  unparseable (Answer.lon a) \/ unparseable (Answer.lat a) \/
  unparseable (Answer.az a) \/ unparseable (Answer.alt a) ->
  exists s' p, status_callback a s = Returned s'
               /\ out s' = out s ++ [SetTimeout (1000 * Answer.interval a)]
               /\ trajectory s' = trajectory s ++ [p]
               /\ holds_NaN p = true.

(** Two answers with a field that is not a number: one with a log array
    and a bad azimuth, one with a bad longitude and no log array. *)
Definition bad_azimuth_answer : Answer.t :=
  {| Answer.lon := JNum 20; Answer.lat := JNum 10;
     Answer.az := JStr "north"; Answer.alt := JNum 408;
     Answer.time := "2016-03-01 12:00:00"; Answer.interval := 5;
     Answer.log := Some [] |}.

Definition no_log_answer : Answer.t :=
  {| Answer.lon := JStr "east"; Answer.lat := JNum 10;
     Answer.az := JNum 135; Answer.alt := JNum 408;
     Answer.time := "2016-03-01 12:00:00"; Answer.interval := 5;
     Answer.log := None |}.

(** A state with a point in the trajectory: start-up and one good poll. *)
Definition tracking_state : state :=
  step (ready sample_window empty_page) (StatusSuccess sample_response).

(** ** The runtime on some inputs *)

Example parseFloat_examples :
  map parseFloat
    [JNum 20; JStr "20"; JStr "  -10.5 deg"; JStr ".5e1"; JNum (-0);
     JStr "north"; JStr ""; JNull; JUndefined; JBool true] =
  [20; 20; -10.5; 5; 0; nan; nan; nan; nan; nan]%float.
Proof. vm_compute. reflexivity. Qed.

Example toFixed_examples :
  map (fun x => toFixed x 3)
    [20; -10.5; 0.0005; 1.0005; -0.0001; 1e21; nan; infinity]%float =
  ["20.000"; "-10.500"; "0.001"; "1.000"; "-0.000"; "1e+21"; "NaN"; "Infinity"].
Proof. vm_compute. reflexivity. Qed.

Example to_string_examples :
  map to_string [450; 0.1; 1e21; 1.5e-7; -0; 123456789012345680000]%float =
  ["450"; "0.1"; "1e+21"; "1.5e-7"; "0"; "123456789012345680000"].
Proof. vm_compute. reflexivity. Qed.

(** One poll on the page as start-up leaves it, once the world file is
    there. *)
Example sample_poll :
  let s := run (ready sample_window empty_page)
               [WorldLoaded; StatusSuccess sample_response] in
  labels s = ("20.000", "10.000", "135.500", "408.000", "2016-03-01 12:00:00 UTC")
  /\ trajectory s = [(20, 10)%float]
  /\ rotate (projection s) = [-20; -10]%float
  /\ log_children (doc s) = ["<p>b</p>"; "<p>a</p>"]
  /\ out s = [ConsoleLog "Document Loaded"; Get "world-50m.json";
              Get "http://tracker/?status"; ConsoleLog "World loaded";
              SetTimeout 5000]
  /\ map (fun el => get_attr "class" (attrs el)) (nodes (doc s)) =
       [None; None; Some (Text "stroke"); Some (Text "fill"); Some (Text "land");
        Some (Text "boundary"); Some (Text "graticule"); Some (Text "satellite");
        Some (Text "trajectory")].
Proof. vm_compute. repeat split. Qed.

(** ** The log *)

Lemma appendLog_from_eq (log : list string) : forall i s,
  appendLog_from i log s =
  set_loop_i (Some (i + length log))
    (on_doc (fun d => set_log_children (rev (map paragraph log) ++ log_children d) d) s).
Proof.
  induction log as [|entry log IH]; intros i s.
  - destruct s as [? ? ? ? ? ? ? ? ? ? ? ? d ?]; destruct d.
    simpl. rewrite Nat.add_0_r. reflexivity.
  - simpl appendLog_from. rewrite IH.
    replace (S i + length log) with (i + length (entry :: log)) by (simpl; lia).
    unfold prepend, on_doc, set_loop_i. simpl.
    rewrite <- app_assoc. reflexivity.
Qed.

Lemma appendLog_eq (log : list string) (s : state) :
  appendLog log s =
  set_loop_i (Some (length log))
    (on_doc (fun d => set_log_children (rev (map paragraph log) ++ log_children d) d) s).
Proof. unfold appendLog. now rewrite appendLog_from_eq. Qed.

(** ** What the success callback leaves behind *)

Lemma status_success_trajectory (data : Response.t) (s : state) :
  trajectory (status_success data s) =
  trajectory s ++ [(parseFloat (Response.lon data), parseFloat (Response.lat data))].
Proof. unfold status_success. rewrite appendLog_eq. reflexivity. Qed.

Lemma status_success_out (data : Response.t) (s : state) :
  out (status_success data s) = out s ++ [SetTimeout (1000 * Response.interval data)].
Proof. unfold status_success. rewrite appendLog_eq. reflexivity. Qed.

Lemma status_success_log (data : Response.t) (s : state) :
  log_children (doc (status_success data s)) =
  rev (map paragraph (Response.log data)) ++ log_children (doc s).
Proof. unfold status_success. rewrite appendLog_eq. reflexivity. Qed.

Lemma status_success_position (data : Response.t) (s : state) :
  lon (status_success data s) = parseFloat (Response.lon data) /\
  lat (status_success data s) = parseFloat (Response.lat data) /\
  az (status_success data s) = parseFloat (Response.az data) /\
  alt (status_success data s) = parseFloat (Response.alt data).
Proof. unfold status_success. rewrite appendLog_eq. repeat split. Qed.

Lemma status_success_rotate (data : Response.t) (s : state) :
  rotate (projection (status_success data s)) =
  [(- parseFloat (Response.lon data))%float; (- parseFloat (Response.lat data))%float].
Proof. unfold status_success. rewrite appendLog_eq. reflexivity. Qed.

Lemma status_success_texts (data : Response.t) (s : state) :
  text_lon (doc (status_success data s)) = toFixed (parseFloat (Response.lon data)) 3 /\
  text_lat (doc (status_success data s)) = toFixed (parseFloat (Response.lat data)) 3 /\
  text_azi (doc (status_success data s)) = toFixed (parseFloat (Response.az data)) 3 /\
  text_alt (doc (status_success data s)) = toFixed (parseFloat (Response.alt data)) 3 /\
  text_time (doc (status_success data s)) = (Response.time data ++ " UTC")%string.
Proof. unfold status_success. rewrite appendLog_eq. repeat split. Qed.

Lemma status_success_labels (data : Response.t) (s : state) :
  labels (status_success data s) =
  (toFixed (parseFloat (Response.lon data)) 3,
   toFixed (parseFloat (Response.lat data)) 3,
   toFixed (parseFloat (Response.az data)) 3,
   toFixed (parseFloat (Response.alt data)) 3,
   (Response.time data ++ " UTC")%string).
Proof. unfold status_success. rewrite appendLog_eq. reflexivity. Qed.

Lemma parseFloat_20 : parseFloat (JNum 20) = 20%float.
Proof. vm_compute. reflexivity. Qed.

Lemma parseFloat_10 : parseFloat (JNum 10) = 10%float.
Proof. vm_compute. reflexivity. Qed.

(** ** What the failure callback leaves behind *)

Lemma status_fail_out (s : state) :
  out (status_fail s) = out s ++ [SetTimeout 2000].
Proof.
  unfold status_fail. simpl stop_flag. destruct (stop_flag s); simpl negb; cbv iota.
  - reflexivity.
  - rewrite appendLog_eq. reflexivity.
Qed.

Lemma status_fail_trajectory (s : state) : trajectory (status_fail s) = [].
Proof.
  unfold status_fail. simpl stop_flag. destruct (stop_flag s); simpl negb; cbv iota.
  - reflexivity.
  - rewrite appendLog_eq. reflexivity.
Qed.

Lemma status_fail_log (s : state) :
  log_children (doc (status_fail s)) =
  if stop_flag s then log_children (doc s)
  else paragraph "Server connection failed. Retrying in 2s." :: log_children (doc s).
Proof.
  unfold status_fail. simpl stop_flag. destruct (stop_flag s); simpl negb; cbv iota.
  - reflexivity.
  - rewrite appendLog_eq. reflexivity.
Qed.

(** ** The poll loop *)

(** C1: a successful poll appends exactly one point to the trajectory, the
    parsed [lon] first and the parsed [lat] second; the points that were
    there stay, in place and unchanged. *)
Theorem poll_success_appends_one_point (data : Response.t) (s : state) :
  trajectory (step s (StatusSuccess data)) =
    trajectory s ++ [(parseFloat (Response.lon data), parseFloat (Response.lat data))]
  /\ length (trajectory (step s (StatusSuccess data))) = S (length (trajectory s))
  /\ firstn (length (trajectory s)) (trajectory (step s (StatusSuccess data))) =
       trajectory s
  /\ lon (step s (StatusSuccess data)) = parseFloat (Response.lon data)
  /\ lat (step s (StatusSuccess data)) = parseFloat (Response.lat data).
Proof.
  simpl step. rewrite status_success_trajectory.
  destruct (status_success_position data s) as (Hlon & Hlat & _).
  repeat split; trivial.
  - rewrite length_app. simpl. lia.
  - rewrite firstn_app, firstn_all, Nat.sub_diag. simpl. apply app_nil_r.
Qed.

(** C2: after a successful poll the projection is rotated to
    [[-lon, -lat]], the negated parsed longitude and latitude; a response
    with [lat = 10] and [lon = 20] gives [[-20, -10]]. *)
Theorem poll_success_rotates_projection :
  (forall data s,
     rotate (projection (step s (StatusSuccess data))) =
       [(- lon (step s (StatusSuccess data)))%float;
        (- lat (step s (StatusSuccess data)))%float]
     /\ lon (step s (StatusSuccess data)) = parseFloat (Response.lon data)
     /\ lat (step s (StatusSuccess data)) = parseFloat (Response.lat data))
  /\ (forall az alt time interval log s,
        rotate (projection (step s (StatusSuccess
          {| Response.lon := JNum 20; Response.lat := JNum 10;
             Response.az := az; Response.alt := alt; Response.time := time;
             Response.interval := interval; Response.log := log |}))) =
        [(-20)%float; (-10)%float]).
Proof.
  split.
  - intros data s. simpl step.
    destruct (status_success_position data s) as (Hlon & Hlat & _).
    rewrite Hlon, Hlat. repeat split. apply status_success_rotate.
  - intros. simpl step. rewrite status_success_rotate. simpl Response.lon.
    simpl Response.lat. rewrite parseFloat_20, parseFloat_10. reflexivity.
Qed.

(** C3: when a poll fails the next one is asked for 2000 ms later, the
    trajectory is emptied whatever it held, and the log gets exactly one
    line on top, the retry message, when [stop_flag] is false and none when
    it is true. *)
Theorem poll_failure_effects (s : state) :
  out (step s StatusFail) = out s ++ [SetTimeout 2000]
  /\ trajectory (step s StatusFail) = []
  /\ log_children (doc (step s StatusFail)) =
       (if stop_flag s then log_children (doc s)
        else "<p>Server connection failed. Retrying in 2s.</p>" :: log_children (doc s)).
Proof.
  simpl step. split; [apply status_fail_out|].
  split; [apply status_fail_trajectory|]. apply status_fail_log.
Qed.

(** C4: after a successful poll the timer is set to 1000 times the
    [interval] of the response, the seconds turned into milliseconds (5
    gives 5000); a failure that follows sets it to 2000 whatever the
    interval was. *)
Theorem poll_delay (data : Response.t) (s : state) :
  out (step s (StatusSuccess data)) =
    out s ++ [SetTimeout (1000 * Response.interval data)]
  /\ out (run s [StatusSuccess data; StatusFail]) =
       out s ++ [SetTimeout (1000 * Response.interval data); SetTimeout 2000]
  /\ (forall lon lat az alt time log,
        out (run s [StatusSuccess
               {| Response.lon := lon; Response.lat := lat; Response.az := az;
                  Response.alt := alt; Response.time := time;
                  Response.interval := 5; Response.log := log |};
             StatusFail]) =
        out s ++ [SetTimeout 5000; SetTimeout 2000]).
Proof.
  assert (Hfail : forall d, out (run s [StatusSuccess d; StatusFail]) =
            out s ++ [SetTimeout (1000 * Response.interval d); SetTimeout 2000]).
  { intro d. unfold run. simpl fold_left. simpl step.
    rewrite status_fail_out, status_success_out, <- app_assoc. reflexivity. }
  split; [apply status_success_out|]. split; [apply Hfail|].
  intros. rewrite Hfail. reflexivity.
Qed.

(** C6: the log lines of a response are put on top of the log one at a
    time, in sequence order: they end up in reverse order above what was
    there, so for [["a", "b"]] the line "b" is on top, "a" right below it
    and the older lines below both. *)
Theorem log_lines_prepended_in_order :
  (forall data s,
     log_children (doc (step s (StatusSuccess data))) =
     rev (map paragraph (Response.log data)) ++ log_children (doc s))
  /\ (forall lon lat az alt time interval s,
        log_children (doc (step s (StatusSuccess
          {| Response.lon := lon; Response.lat := lat; Response.az := az;
             Response.alt := alt; Response.time := time;
             Response.interval := interval; Response.log := ["a"; "b"] |}))) =
        "<p>b</p>" :: "<p>a</p>" :: log_children (doc s)).
Proof.
  split; intros; simpl step; rewrite status_success_log; reflexivity.
Qed.

(** ** Polling the same status again *)

(** C8: polled again and again with the same response, the five labels
    stay as the first poll left them, while the trajectory gets the same
    point once more each time. *)
Theorem repeated_poll (data : Response.t) (s : state) (n : nat) :
  labels (polls (S n) data s) = labels (polls 1 data s)
  /\ trajectory (polls (S n) data s) =
       trajectory (polls n data s) ++
       [(parseFloat (Response.lon data), parseFloat (Response.lat data))]
  /\ trajectory (polls n data s) =
       trajectory s ++
       repeat (parseFloat (Response.lon data), parseFloat (Response.lat data)) n.
Proof.
  split; [|split].
  - simpl. now rewrite !status_success_labels.
  - simpl. apply status_success_trajectory.
  - induction n as [|n IH].
    + simpl. now rewrite app_nil_r.
    + simpl polls. simpl step.
      rewrite status_success_trajectory, IH, <- app_assoc.
      f_equal. symmetry. apply repeat_cons.
Qed.

(** ** The buttons *)

Lemma step_trajectory (s : state) (e : event) :
  trajectory (step s e) =
  match e with
  | StatusSuccess data =>
      trajectory s ++ [(parseFloat (Response.lon data), parseFloat (Response.lat data))]
  | StatusFail | StopComputingClick => []
  | _ => trajectory s
  end.
Proof.
  destruct e; simpl step; try reflexivity.
  - apply status_success_trajectory.
  - apply status_fail_trajectory.
Qed.

Lemma run_cons (s : state) (e : event) (es : list event) :
  run s (e :: es) = run (step s e) es.
Proof. reflexivity. Qed.

Lemma run_snoc (s : state) (es : list event) (e : event) :
  run s (es ++ [e]) = step (run s es) e.
Proof. unfold run. now rewrite fold_left_app. Qed.

Lemma run_keeps_empty (es : list event) : forall s,
  (forall data, ~ In (StatusSuccess data) es) ->
  trajectory s = [] -> trajectory (run s es) = [].
Proof.
  induction es as [|e es IH]; intros s Hno Hs; [exact Hs|].
  simpl. apply IH.
  - intros data Hin. apply (Hno data). now right.
  - rewrite step_trajectory. destruct e; trivial.
    exfalso. apply (Hno data). now left.
Qed.

(** A poll that succeeds between the click and the answer to it leaves its
    point in the trajectory. *)
Lemma stop_answer_empties_fails :
  ~ stop_answer_empties
      (run (ready sample_window empty_page)
           [StopComputingClick; StatusSuccess sample_response]).
Proof.
  intros [_ H]. rewrite step_trajectory in H.
  change (trajectory (step (step (ready sample_window empty_page) StopComputingClick)
                           (StatusSuccess sample_response)) = []) in H.
  rewrite step_trajectory in H. destruct (trajectory _); discriminate.
Qed.

(** C5: the click on the stop button empties the trajectory at once,
    before any answer and whatever the poll loop is doing; the answer sets
    [stop_flag] to true and leaves the trajectory as it is then, which is
    still empty when no poll has succeeded since the click; the answer to
    the start command sets [stop_flag] to false. *)
Theorem stop_and_start_computing (s : state) (es : list event)
  (Hno : forall data, ~ In (StatusSuccess data) es) :
  trajectory (step s StopComputingClick) = []
  /\ stop_flag (step s StopComputingSuccess) = true
  /\ trajectory (step s StopComputingSuccess) = trajectory s
  /\ stop_flag (step s StartComputingSuccess) = false
  /\ trajectory (run s (StopComputingClick :: es ++ [StopComputingSuccess])) = []
  /\ stop_flag (run s (StopComputingClick :: es ++ [StopComputingSuccess])) = true.
Proof.
  rewrite run_cons, run_snoc. repeat split.
  rewrite step_trajectory. now apply run_keeps_empty.
Qed.

Lemma stop_and_start_computing_witness :
  trajectory tracking_state <> []
  /\ trajectory (run tracking_state
                   (StopComputingClick :: [Timeout; WorldLoaded; StartTrackingClick]
                    ++ [StopComputingSuccess])) = [].
Proof.
  split.
  - unfold tracking_state. rewrite step_trajectory.
    destruct (trajectory (ready sample_window empty_page)); discriminate.
  - assert (F : forall data,
               ~ In (StatusSuccess data) [Timeout; WorldLoaded; StartTrackingClick]).
    { intros data [H|[H|[H|[]]]]; discriminate H. }
    exact (proj1 (proj2 (proj2 (proj2 (proj2
             (stop_and_start_computing tracking_state
                [Timeout; WorldLoaded; StartTrackingClick] F)))))).
Defined.

(** ** The size of the drawing *)

Lemma number_neq (x y : number) : Prim2SF x <> Prim2SF y -> x <> y.
Proof. intros H E. apply H. now rewrite E. Qed.

(** In a viewport 1000 wide and 500 high the side is 450, 45% of the
    width, and not the 225 that 45% of the height gives; in one 1000 wide
    and 1500 high it is 900 and not 675. *)
Lemma spec_side_fails :
  width (setVariables sample_window empty_page) = 450%float
  /\ spec_side sample_window = 225%float
  /\ width (setVariables sample_window empty_page) <> spec_side sample_window
  /\ width (setVariables {| innerWidth := 1000; outerHeight := 1500; href := "" |} empty_page)
     <> spec_side {| innerWidth := 1000; outerHeight := 1500; href := "" |}.
Proof.
  repeat split; try (apply number_neq; vm_compute; discriminate).
Qed.

(** C9: at a window 1000 wide and 300 high the side of the square is 450,
    45% of the width, where the lesser of 90% of the width and 45% of the
    height is 135: the height decides the test only and never the size,
    and the square is higher than the window. *)
Lemma side_ignores_height :
  let w := {| innerWidth := 1000; outerHeight := 300; href := "" |} in
  width (setVariables w empty_page) = 450%float
  /\ height (setVariables w empty_page) = 450%float
  /\ spec_side w = 135%float
  /\ width (setVariables w empty_page) <> spec_side w
  /\ (outerHeight w <? height (setVariables w empty_page))%float = true.
Proof.
  cbv zeta. repeat split; try (apply number_neq; vm_compute; discriminate).
Qed.

(** What [setVariables] computes: a square, [height] equal to [width],
    whose side is 45% of the inner width of the window when the outer
    height is less than the inner width and 90% of the inner width
    otherwise; the [svg] element gets that width and height. *)
Theorem drawing_is_square (w : window) (page : document) :
  height (setVariables w page) = width (setVariables w page)
  /\ width (setVariables w page) =
       (if outerHeight w <? innerWidth w
        then 0.45 * innerWidth w else 0.9 * innerWidth w)%float
  /\ svg_attrs (doc (setVariables w page)) =
       [("width", Num (width (setVariables w page)));
        ("height", Num (height (setVariables w page)))]
  /\ svg_attrs (doc (ready w page)) = svg_attrs (doc (setVariables w page))
  /\ width (ready w page) = width (setVariables w page)
  /\ height (ready w page) = height (setVariables w page).
Proof.
  repeat split; unfold ready, drawSat;
    destruct (selectAll _ _); reflexivity.
Qed.

(** ** Fields that are not numbers *)

Lemma toFixed_NaN (x : number) (f : nat) : isNaN x = true -> toFixed x f = "NaN".
Proof. intro H. unfold toFixed, Prim2SF. unfold isNaN in H. now rewrite H. Qed.

(** With an azimuth that is not a number and a good longitude and latitude
    the point appended is [[20, 10]]. *)
Lemma unparseable_gives_NaN_point_fails :
  ~ unparseable_gives_NaN_point
      {| Response.lon := JNum 20; Response.lat := JNum 10;
         Response.az := JStr "north"; Response.alt := JNum 408;
         Response.time := "2016-03-01 12:00:00"; Response.interval := 5;
         Response.log := [] |}
      (ready sample_window empty_page).
Proof.
  intro H. destruct H as (p & Hp & Hnan).
  - right; right; left. vm_compute. reflexivity.
  - rewrite step_trajectory in Hp. apply app_inv_head in Hp.
    injection Hp as <-. vm_compute in Hnan. discriminate Hnan.
Qed.

(** On a response that has its log array, a field among [lon], [lat],
    [az] and [alt] that [parseFloat] cannot read does not stop the success
    callback: it runs to its end (the
    timer is set from [interval], one point is appended), the global of
    that field is NaN and its label shows "NaN".  The point appended is
    [[lon, lat]], so it holds a NaN exactly when it is [lon] or [lat] that
    cannot be read, in that coordinate. *)
Theorem unparseable_field_becomes_NaN (data : Response.t) (s : state) :
  let s' := step s (StatusSuccess data) in
  out s' = out s ++ [SetTimeout (1000 * Response.interval data)]
  /\ trajectory s' = trajectory s ++ [(lon s', lat s')]
  /\ holds_NaN (lon s', lat s') =
       isNaN (parseFloat (Response.lon data)) || isNaN (parseFloat (Response.lat data))
  /\ (unparseable (Response.lon data) ->
        isNaN (lon s') = true /\ text_lon (doc s') = "NaN"
        /\ holds_NaN (lon s', lat s') = true)
  /\ (unparseable (Response.lat data) ->
        isNaN (lat s') = true /\ text_lat (doc s') = "NaN"
        /\ holds_NaN (lon s', lat s') = true)
  /\ (unparseable (Response.az data) ->
        isNaN (az s') = true /\ text_azi (doc s') = "NaN")
  /\ (unparseable (Response.alt data) ->
        isNaN (alt s') = true /\ text_alt (doc s') = "NaN").
Proof.
  intro s'. subst s'. simpl step.
  destruct (status_success_position data s) as (Hlon & Hlat & Haz & Halt).
  destruct (status_success_texts data s) as (Hl1 & Hl2 & Hl3 & Hl4 & _).
  rewrite Hlon, Hlat, Haz, Halt, Hl1, Hl2, Hl3, Hl4.
  split; [apply status_success_out|].
  split; [apply status_success_trajectory|].
  unfold unparseable, holds_NaN. simpl fst. simpl snd.
  repeat split; try assumption; try (now apply toFixed_NaN).
  - rewrite H. reflexivity.
  - rewrite H. apply orb_true_r.
Qed.

Lemma unparseable_field_becomes_NaN_witness :
  labels (step (ready sample_window empty_page) (StatusSuccess unreadable_response)) =
  ("NaN", "NaN", "NaN", "NaN", "2016-03-01 12:00:00 UTC").
Proof.
  destruct (unparseable_field_becomes_NaN unreadable_response
              (ready sample_window empty_page)) as (_ & _ & _ & H1 & H2 & H3 & H4).
  destruct H1 as (_ & H1 & _); [vm_compute; reflexivity|].
  destruct H2 as (_ & H2 & _); [vm_compute; reflexivity|].
  destruct H3 as (_ & H3); [vm_compute; reflexivity|].
  destruct H4 as (_ & H4); [vm_compute; reflexivity|].
  unfold labels. rewrite H1, H2, H3, H4. reflexivity.
Defined.

(** ** The satellite marker *)

Lemma circles_selectAll (s : state) :
  circles s = selectAll [ByTag "circle"] (nodes (doc s)).
Proof. reflexivity. Qed.

Lemma get_put_other (name name' : string) (v : attr_value) (l : list (string * attr_value)) :
  name <> name' -> get_attr name (put_attr name' v l) = get_attr name l.
Proof.
  intro Hne. induction l as [|[k w] l IH]; simpl.
  - destruct (String.eqb_spec name' name); congruence.
  - destruct (String.eqb_spec k name') as [->|Hk]; simpl.
    + destruct (String.eqb_spec name' name); congruence.
    + now rewrite IH.
Qed.

Lemma attr_d_keeps_place (f : element -> attr_value) : keeps_place (attr "d" f).
Proof.
  intro el. split; [reflexivity|]. unfold position, attr. simpl attrs.
  now rewrite !get_put_other by discriminate.
Qed.

Lemma keeps_place_bind (g : geometry) (f : element -> element) :
  keeps_place f -> keeps_place (fun el => f (bind g el)).
Proof. intros Hf el. destruct (Hf (bind g el)) as [-> ->]. now split. Qed.

Lemma is_circle_tag (el el' : element) : tag el = tag el' -> is_circle el = is_circle el'.
Proof. unfold is_circle, matches_any. simpl. now intros ->. Qed.

(** On any list of elements, a change that keeps places leaves the
    positions of the circles as they are. *)
Lemma on_all_positions (group : list selector) (f : element -> element)
  (ns : list element) :
  keeps_place f ->
  map position (filter is_circle (on_all group f ns)) =
  map position (filter is_circle ns).
Proof.
  intro Hf. induction ns as [|el ns IH]; [reflexivity|].
  simpl. destruct (matches_any group el).
  - destruct (Hf el) as [Ht Hp]. rewrite (is_circle_tag _ _ Ht).
    destruct (is_circle el); simpl; now rewrite IH, ?Hp.
  - destruct (is_circle el); simpl; now rewrite IH.
Qed.

(** Where no circle is selected, a change that keeps tags leaves the
    circles as they are. *)
Lemma on_all_circles (group : list selector) (f : element -> element)
  (ns : list element) :
  (forall el, tag (f el) = tag el) ->
  (forall el, In el (filter is_circle ns) -> matches_any group el = false) ->
  filter is_circle (on_all group f ns) = filter is_circle ns.
Proof.
  intros Hf. induction ns as [|el ns IH]; intro Hno; [reflexivity|].
  simpl in *. destruct (matches_any group el) eqn:Hm.
  - rewrite (is_circle_tag _ _ (Hf el)). destruct (is_circle el) eqn:Hc.
    + rewrite Hno in Hm by now left. discriminate.
    + now apply IH.
  - destruct (is_circle el); [f_equal|]; apply IH; intros; apply Hno; simpl; auto.
Qed.

Lemma insert_before_circles (group : list selector) (el : element) (ns : list element) :
  is_circle el = false ->
  filter is_circle (insert_before group el ns) = filter is_circle ns.
Proof.
  intro Hel. induction ns as [|n ns IH]; simpl.
  - now rewrite Hel.
  - destruct (matches_any group n); simpl.
    + now rewrite Hel.
    + now rewrite IH.
Qed.

Lemma append_circles (el : element) (ns : list element) :
  is_circle el = false -> filter is_circle (ns ++ [el]) = filter is_circle ns.
Proof. intro Hel. rewrite filter_app. simpl. rewrite Hel. apply app_nil_r. Qed.

(** What the redraw of a successful poll does to the drawing. *)
Lemma status_success_nodes (data : Response.t) (s : state) :
  let p' := with_rotate [(- parseFloat (Response.lon data))%float;
                         (- parseFloat (Response.lat data))%float] (projection s) in
  let tr' := trajectory s ++
             [(parseFloat (Response.lon data), parseFloat (Response.lat data))] in
  nodes (doc (status_success data s)) =
  on_all [ByClass "trajectory"]
    (fun el => attr "d" (fun el => PathData p' (datum el)) (bind (LineString tr') el))
    (on_all layers (attr "d" (fun el => PathData p' (datum el))) (nodes (doc s))).
Proof. unfold status_success. rewrite appendLog_eq. reflexivity. Qed.

Lemma status_fail_nodes (s : state) : nodes (doc (status_fail s)) = nodes (doc s).
Proof.
  unfold status_fail. simpl stop_flag. destruct (stop_flag s); simpl negb; cbv iota.
  - reflexivity.
  - rewrite appendLog_eq. reflexivity.
Qed.

(** Every callback keeps the positions of the circles, in any state. *)
Lemma step_positions (s : state) (e : event) :
  map position (circles (step s e)) = map position (circles s).
Proof.
  unfold circles.
  destruct e; simpl step; try reflexivity.
  - rewrite status_success_nodes. cbv zeta.
    rewrite !on_all_positions; trivial.
    + apply attr_d_keeps_place.
    + apply (keeps_place_bind _ (attr "d" _)), attr_d_keeps_place.
  - now rewrite status_fail_nodes.
  - unfold world_loaded. simpl nodes.
    now rewrite append_circles, !insert_before_circles.
Qed.

(** A marker that no redraw selects stays the only circle. *)
Lemma step_circles (m : element) (s : state) (e : event) :
  matches_any layers m = false ->
  matches_any [ByClass "trajectory"] m = false ->
  circles s = [m] -> circles (step s e) = [m].
Proof.
  intros Hl Ht. unfold circles. intro Hs.
  destruct e; simpl step; try exact Hs.
  - rewrite status_success_nodes. cbv zeta.
    assert (H1 : filter is_circle
              (on_all layers
                 (attr "d" (fun el => PathData
                    (with_rotate [(- parseFloat (Response.lon data))%float;
                                  (- parseFloat (Response.lat data))%float]
                       (projection s)) (datum el)))
                 (nodes (doc s))) = [m]).
    { rewrite on_all_circles; trivial.
      rewrite Hs. intros el [<-|[]]. exact Hl. }
    rewrite on_all_circles; trivial.
    rewrite H1. intros el [<-|[]]. exact Ht.
  - now rewrite status_fail_nodes.
  - unfold world_loaded. simpl nodes.
    now rewrite append_circles, !insert_before_circles.
Qed.

Lemma run_circles (m : element) (es : list event) : forall s,
  matches_any layers m = false ->
  matches_any [ByClass "trajectory"] m = false ->
  circles s = [m] -> circles (run s es) = [m].
Proof.
  induction es as [|e es IH]; intros s Hl Ht Hs; [exact Hs|].
  rewrite run_cons. apply IH; trivial. now apply step_circles.
Qed.

Lemma ready_circles (w : window) (page : document) :
  circles (ready w page) = [marker (projection (ready w page))].
Proof. reflexivity. Qed.

(** C7: start-up draws one circle, placed where the projection of that
    moment, still at rotation [[0, 0, 0]], puts the position [[0, 0]].
    Whatever callbacks run afterwards, it stays the only circle and stays
    as it was drawn; in particular the two redraw functions leave it
    unchanged, and in any state at all no callback changes the [cx] and
    [cy] of a circle. *)
Theorem marker_is_never_moved (w : window) (page : document) (es : list event) :
  let s0 := ready w page in
  circles s0 = [marker (projection s0)]
  /\ rotate (projection s0) = [0; 0; 0]%float
  /\ position (marker (projection s0)) =
       (Some (Projected (projection s0) (0, 0)%float 0),
        Some (Projected (projection s0) (0, 0)%float 1))
  /\ circles (run s0 es) = circles s0
  /\ (forall lat lon, circles (rotateProjection lat lon (run s0 es)) = circles s0)
  /\ (forall lat lon, circles (plotPoints lat lon (run s0 es)) = circles s0)
  /\ (forall s e, map position (circles (step s e)) = map position (circles s))
  /\ (forall s lat lon,
        map position (circles (rotateProjection lat lon s)) = map position (circles s))
  /\ (forall s lat lon,
        map position (circles (plotPoints lat lon s)) = map position (circles s)).
Proof.
  intro s0. subst s0.
  assert (Hrun : circles (run (ready w page) es) = [marker (projection (ready w page))]).
  { apply run_circles; reflexivity. }
  rewrite ready_circles. repeat split; trivial.
  - intros lat lon. unfold circles, rotateProjection in *. simpl nodes. rewrite on_all_circles; trivial.
    rewrite Hrun. intros el [<-|[]]. reflexivity.
  - intros lat lon. unfold circles, plotPoints in *. simpl nodes. rewrite on_all_circles; trivial.
    rewrite Hrun. intros el [<-|[]]. reflexivity.
  - apply step_positions.
  - intros s lat lon. unfold circles, rotateProjection. simpl nodes. apply on_all_positions, attr_d_keeps_place.
  - intros s lat lon. unfold circles, plotPoints. simpl nodes. apply on_all_positions.
    apply (keeps_place_bind _ (attr "d" _)), attr_d_keeps_place.
Qed.


(* ================================================================== *)
(** * Further properties of the script *)
(* ================================================================== *)

(** ** The two status callbacks in closed form *)

Lemma status_success_eq (data : Response.t) (s : state) :
  status_success data s =
  let lo := parseFloat (Response.lon data) in
  let la := parseFloat (Response.lat data) in
  let p' := with_rotate [(- lo)%float; (- la)%float] (projection s) in
  let tr' := trajectory s ++ [(lo, la)] in
  {| win := win s; width := width s; height := height s;
     lon := lo; lat := la;
     az := parseFloat (Response.az data); alt := parseFloat (Response.alt data);
     time := Response.time data;
     stop_flag := stop_flag s;
     trajectory := tr';
     loop_i := Some (length (Response.log data));
     projection := p';
     doc :=
       {| svg_attrs := svg_attrs (doc s);
          nodes :=
            on_all [ByClass "trajectory"]
              (fun el => attr "d" (fun el => PathData p' (datum el))
                           (bind (LineString tr') el))
              (on_all layers (attr "d" (fun el => PathData p' (datum el)))
                 (nodes (doc s)));
          ui_width := ui_width (doc s);
          frame_height := frame_height (doc s);
          text_lon := toFixed lo 3;
          text_lat := toFixed la 3;
          text_azi := toFixed (parseFloat (Response.az data)) 3;
          text_alt := toFixed (parseFloat (Response.alt data)) 3;
          text_time := (Response.time data ++ " UTC")%string;
          log_children := rev (map paragraph (Response.log data)) ++ log_children (doc s) |};
     out := out s ++ [SetTimeout (1000 * Response.interval data)] |}.
Proof. unfold status_success. rewrite appendLog_eq. reflexivity. Qed.

Lemma status_fail_eq (s : state) :
  status_fail s =
  {| win := win s; width := width s; height := height s;
     lon := lon s; lat := lat s; az := az s; alt := alt s; time := time s;
     stop_flag := stop_flag s;
     trajectory := [];
     loop_i := if stop_flag s then loop_i s else Some 1;
     projection := projection s;
     doc :=
       {| svg_attrs := svg_attrs (doc s); nodes := nodes (doc s);
          ui_width := ui_width (doc s); frame_height := frame_height (doc s);
          text_lon := text_lon (doc s); text_lat := text_lat (doc s);
          text_azi := text_azi (doc s); text_alt := text_alt (doc s);
          text_time := text_time (doc s);
          log_children := lines s StatusFail ++ log_children (doc s) |};
     out := out s ++ [SetTimeout 2000] |}.
Proof.
  destruct s as [? ? ? ? ? ? ? ? flag ? ? ? d ?]. destruct d.
  destruct flag; reflexivity.
Qed.

(** ** What each callback asks for *)

Lemma step_win (s : state) (e : event) : win (step s e) = win s.
Proof.
  destruct e; simpl step; try reflexivity.
  - now rewrite status_success_eq.
  - now rewrite status_fail_eq.
Qed.

Lemma step_out (s : state) (e : event) :
  out (step s e) = out s ++ asks (href (win s)) e.
Proof.
  destruct e; simpl step; try reflexivity.
  - now rewrite status_success_eq.
  - now rewrite status_fail_eq.
  - simpl. now rewrite app_nil_r.
  - simpl. now rewrite app_nil_r.
  - simpl. now rewrite app_nil_r.
Qed.

Lemma run_win (es : list event) : forall s, win (run s es) = win s.
Proof.
  induction es as [|e es IH]; intro s; [reflexivity|].
  rewrite run_cons, IH. apply step_win.
Qed.

Lemma run_out (es : list event) : forall s,
  out (run s es) = out s ++ flat_map (asks (href (win s))) es.
Proof.
  induction es as [|e es IH]; intro s.
  - simpl. now rewrite app_nil_r.
  - rewrite run_cons, IH, step_out, step_win, <- app_assoc. reflexivity.
Qed.

(** X1: what a run asks of the browser is decided by its events alone, one
    after the other: the state, and [stop_flag] in it, has no say.  From
    start-up these are the console line, the request for the world file and
    the first status request, and then what each event asks for. *)
Theorem effects_follow_events (w : window) (page : document) (s : state)
  (es : list event) :
  out (run s es) = out s ++ flat_map (asks (href (win s))) es
  /\ out (run (ready w page) es) =
       [ConsoleLog "Document Loaded"; Get "world-50m.json";
        Get (href w ++ "?status")%string] ++ flat_map (asks (href w)) es.
Proof. split; rewrite run_out; reflexivity. Qed.

Lemma eqb_append_l (h a b : string) :
  String.eqb (h ++ a)%string (h ++ b)%string = String.eqb a b.
Proof.
  induction h as [|c h IH]; [reflexivity|].
  simpl. now rewrite Ascii.eqb_refl.
Qed.

Lemma timers_app (l l' : list effect) : timers (l ++ l') = timers l ++ timers l'.
Proof. apply flat_map_app. Qed.

Lemma timers_asks (h : string) (es : list event) :
  length (timers (flat_map (asks h) es)) = length (filter is_answer es).
Proof.
  induction es as [|e es IH]; [reflexivity|].
  simpl flat_map. rewrite timers_app, length_app, IH.
  destruct e; reflexivity.
Qed.

Lemma status_requests_asks (h : string) (es : list event) :
  length (status_requests h (flat_map (asks h) es)) = length (filter is_timeout es).
Proof.
  induction es as [|e es IH]; [reflexivity|].
  simpl flat_map. unfold status_requests in *. rewrite filter_app, length_app, IH.
  destruct e; simpl; rewrite ?eqb_append_l, ?String.eqb_refl; reflexivity.
Qed.

(** Over events that carry responses of the interface: every answer to a
    status request sets exactly one timer and nothing else sets one; every
    timer that fires sends exactly one status request and nothing else
    sends one. *)
Lemma run_timers_and_requests (s : state) (es : list event) :
  length (timers (out (run s es))) =
    length (timers (out s)) + length (filter is_answer es)
  /\ length (status_requests (href (win s)) (out (run s es))) =
       length (status_requests (href (win s)) (out s)) + length (filter is_timeout es).
Proof.
  rewrite run_out. split.
  - now rewrite timers_app, length_app, timers_asks.
  - unfold status_requests at 1. rewrite filter_app, length_app.
    fold (status_requests (href (win s)) (out s)).
    fold (status_requests (href (win s)) (flat_map (asks (href (win s))) es)).
    now rewrite status_requests_asks.
Qed.

(** ** The trajectory over a run *)

Lemma run_trajectory_no_clear (es : list event) : forall s,
  Forall (fun e => clears e = false) es ->
  trajectory (run s es) = trajectory s ++ fixes es.
Proof.
  induction es as [|e es IH]; intros s Hes.
  - simpl. now rewrite app_nil_r.
  - inversion Hes as [|? ? He Hes']; subst.
    rewrite run_cons, IH, step_trajectory by assumption.
    destruct e; try discriminate He; simpl; rewrite <- ?app_assoc; reflexivity.
Qed.

(** X3: the trajectory holds, oldest first, the positions of the
    successful polls since the last poll failure or click on the stop
    button, and before the first such event what it held at the start
    followed by those positions. *)
Theorem trajectory_since_last_clear (s : state) (pre post : list event) (c : event)
  (Hc : clears c = true) (Hpost : Forall (fun e => clears e = false) post) :
  trajectory (run s (pre ++ c :: post)) = fixes post
  /\ trajectory (run s post) = trajectory s ++ fixes post.
Proof.
  split; [|now apply run_trajectory_no_clear].
  unfold run. rewrite fold_left_app. fold (run s pre).
  change (fold_left step (c :: post) (run s pre))
    with (run (step (run s pre) c) post).
  rewrite run_trajectory_no_clear, step_trajectory by assumption.
  destruct c; try discriminate Hc; reflexivity.
Qed.

Lemma trajectory_since_last_clear_witness :
  trajectory (run (ready sample_window empty_page)
                ([StatusSuccess unreadable_response] ++ StatusFail ::
                 [StatusSuccess sample_response; Timeout;
                  StatusSuccess sample_response])) =
  fixes [StatusSuccess sample_response; Timeout; StatusSuccess sample_response].
Proof.
  assert (F : Forall (fun e => clears e = false)
                [StatusSuccess sample_response; Timeout; StatusSuccess sample_response])
    by (repeat constructor).
  exact (proj1 (trajectory_since_last_clear (ready sample_window empty_page)
                  [StatusSuccess unreadable_response] _ StatusFail eq_refl F)).
Defined.

(** ** The stop flag over a run *)

Lemma step_stop_flag (s : state) (e : event) :
  stop_flag (step s e) =
  match flag_of e with Some b => b | None => stop_flag s end.
Proof.
  destruct e; simpl step; try reflexivity.
  - now rewrite status_success_eq.
  - now rewrite status_fail_eq.
Qed.

Lemma run_stop_flag_kept (es : list event) : forall s,
  Forall (fun e => flag_of e = None) es -> stop_flag (run s es) = stop_flag s.
Proof.
  induction es as [|e es IH]; intros s Hes; [reflexivity|].
  inversion Hes as [|? ? He Hes']; subst.
  rewrite run_cons, IH, step_stop_flag, He by assumption. reflexivity.
Qed.

(** X4: [stop_flag] is what the last answer to a start or stop computing
    command made it, true for stop and false for start; clicks, polls,
    timers and the world file never change it, so from start-up it is
    false until the first answer to a stop command. *)
Theorem stop_flag_follows_answers (w : window) (page : document) (s : state)
  (pre post : list event) (c : event) (b : bool)
  (Hc : flag_of c = Some b) (Hpost : Forall (fun e => flag_of e = None) post) :
  stop_flag (run s (pre ++ c :: post)) = b
  /\ stop_flag (run s post) = stop_flag s
  /\ stop_flag (run (ready w page) post) = false.
Proof.
  split; [|split].
  - unfold run. rewrite fold_left_app. fold (run s pre).
    change (fold_left step (c :: post) (run s pre))
      with (run (step (run s pre) c) post).
    rewrite run_stop_flag_kept, step_stop_flag, Hc by assumption. reflexivity.
  - now apply run_stop_flag_kept.
  - now rewrite run_stop_flag_kept.
Qed.

Lemma stop_flag_follows_answers_witness :
  stop_flag (run (ready sample_window empty_page)
               ([StopComputingClick; StartComputingSuccess] ++
                StopComputingSuccess :: [StartComputingClick; StatusFail])) = true.
Proof.
  assert (F : Forall (fun e => flag_of e = None) [StartComputingClick; StatusFail])
    by (repeat constructor).
  exact (proj1 (stop_flag_follows_answers sample_window empty_page
                  (ready sample_window empty_page)
                  [StopComputingClick; StartComputingSuccess] _
                  StopComputingSuccess true eq_refl F)).
Defined.

(** ** The log over a run *)

Lemma step_log (s : state) (e : event) :
  log_children (doc (step s e)) = lines s e ++ log_children (doc s).
Proof.
  destruct e; simpl step; try reflexivity.
  - now rewrite status_success_eq.
  - now rewrite status_fail_eq.
Qed.

(** X5: the log is only ever added to at the top.  After any run the lines
    that were there are still there, in their order, below the new ones;
    and a run without an answer to a status request adds none. *)
Theorem log_only_grows (s : state) (es : list event) :
  (exists new, log_children (doc (run s es)) = new ++ log_children (doc s))
  /\ (Forall (fun e => is_answer e = false) es ->
      log_children (doc (run s es)) = log_children (doc s)).
Proof.
  split.
  - revert s. induction es as [|e es IH]; intro s.
    + now exists [].
    + rewrite run_cons. destruct (IH (step s e)) as [new Hnew].
      exists (new ++ lines s e). now rewrite Hnew, step_log, app_assoc.
  - revert s. induction es as [|e es IH]; intros s Hes; [reflexivity|].
    inversion Hes as [|? ? He Hes']; subst.
    rewrite run_cons, IH, step_log by assumption.
    destruct e; try discriminate He; reflexivity.
Qed.

Lemma log_only_grows_witness :
  log_children (doc (run (ready sample_window empty_page)
                       [Timeout; StopComputingClick; WorldLoaded])) =
  log_children (doc (ready sample_window empty_page)).
Proof.
  assert (F : Forall (fun e => is_answer e = false)
                [Timeout; StopComputingClick; WorldLoaded])
    by (repeat constructor).
  exact (proj2 (log_only_grows (ready sample_window empty_page) _) F).
Defined.

(** ** What the page shows over a run *)

Lemma step_view (s : state) (e : event) :
  view (step s e) =
  match e with
  | StatusSuccess data => view_of data (projection s)
  | _ => view s
  end.
Proof.
  destruct e; simpl step; try reflexivity.
  - now rewrite status_success_eq.
  - now rewrite status_fail_eq.
Qed.

Lemma run_view_kept (es : list event) : forall s,
  Forall (fun e => is_success e = false) es -> view (run s es) = view s.
Proof.
  induction es as [|e es IH]; intros s Hes; [reflexivity|].
  inversion Hes as [|? ? He Hes']; subst.
  rewrite run_cons, IH, step_view by assumption.
  destruct e; try discriminate He; reflexivity.
Qed.

Lemma run_split (s : state) (pre post : list event) (c : event) :
  run s (pre ++ c :: post) = run (step (run s pre) c) post.
Proof. unfold run. now rewrite fold_left_app. Qed.

(** X6: whatever follows the last successful poll of a run (failed polls,
    clicks, timers, the world file), the globals, the labels and the
    rotation stay those of that response: the labels are the parsed numbers
    with three decimals and the time with " UTC", the rotation is
    [[-lon, -lat]]. *)
Theorem view_is_of_last_success (s : state) (pre post : list event)
  (data : Response.t) (Hpost : Forall (fun e => is_success e = false) post) :
  let s' := run s (pre ++ StatusSuccess data :: post) in
  view s' = view_of data (projection (run s pre))
  /\ rotate (projection s') = [(- lon s')%float; (- lat s')%float]
  /\ labels s' = (toFixed (lon s') 3, toFixed (lat s') 3, toFixed (az s') 3,
                  toFixed (alt s') 3, (time s' ++ " UTC")%string).
Proof.
  intro s'.
  assert (H : view s' = view_of data (projection (run s pre))).
  { subst s'. rewrite run_split, run_view_kept, step_view by assumption. reflexivity. }
  split; [exact H|].
  unfold view, view_of in H. cbv zeta in H.
  apply pair_equal_spec in H as [H Hp].
  apply pair_equal_spec in H as [H Hl].
  apply pair_equal_spec in H as [H Ht].
  apply pair_equal_spec in H as [H Hh].
  apply pair_equal_spec in H as [H Ha].
  apply pair_equal_spec in H as [Hlo Hla].
  rewrite Hp, Hl, Hlo, Hla, Ha, Hh, Ht. split; reflexivity.
Qed.

Lemma view_is_of_last_success_witness :
  view (run (ready sample_window empty_page)
          ([WorldLoaded] ++ StatusSuccess sample_response ::
           [StatusFail; Timeout; StopComputingClick])) =
  view_of sample_response (projection (run (ready sample_window empty_page) [WorldLoaded])).
Proof.
  assert (F : Forall (fun e => is_success e = false)
                [StatusFail; Timeout; StopComputingClick])
    by (repeat constructor).
  exact (proj1 (view_is_of_last_success (ready sample_window empty_page)
                  [WorldLoaded] _ sample_response F)).
Defined.

(** X7: only a successful poll changes what the page shows of the
    satellite.  Over a run without one the globals, the labels and the
    projection are untouched; so from start-up until the first successful
    poll the position is [[0, 0]], the rotation [[0, 0, 0]] and the labels
    are still the texts the page came with. *)
Theorem only_success_moves_view (w : window) (page : document) (s : state)
  (es : list event) (Hes : Forall (fun e => is_success e = false) es) :
  view (run s es) = view s
  /\ (lon (run (ready w page) es), lat (run (ready w page) es)) = (0, 0)%float
  /\ rotate (projection (run (ready w page) es)) = [0; 0; 0]%float
  /\ labels (run (ready w page) es) =
       (text_lon page, text_lat page, text_azi page, text_alt page, text_time page).
Proof.
  split; [now apply run_view_kept|].
  pose proof (run_view_kept es (ready w page) Hes) as H.
  unfold view in H.
  apply pair_equal_spec in H as [H Hp].
  apply pair_equal_spec in H as [H Hl].
  apply pair_equal_spec in H as [H _].
  apply pair_equal_spec in H as [H _].
  apply pair_equal_spec in H as [H _].
  apply pair_equal_spec in H as [Hlo Hla].
  rewrite Hp, Hl, Hlo, Hla. repeat split.
Qed.

Lemma only_success_moves_view_witness :
  view (run (ready sample_window empty_page) [StatusFail; Timeout; WorldLoaded]) =
  view (ready sample_window empty_page).
Proof.
  assert (F : Forall (fun e => is_success e = false) [StatusFail; Timeout; WorldLoaded])
    by (repeat constructor).
  exact (proj1 (only_success_moves_view sample_window empty_page
                  (ready sample_window empty_page) _ F)).
Defined.

(** ** The projection over a run *)

(** X8: nothing but the rotation of the projection ever changes.  Over any
    run the scale, the centre, the clip angle and the precision of the
    projection stay what they were, as do the globals [$width] and
    [$height] and the size of the [svg] element; from start-up they are
    0.459 times the width, the middle of the square, 90 and 1. *)
Theorem projection_is_only_rotated (w : window) (page : document) (s : state)
  (es : list event) :
  (scale (projection (run s es)) = scale (projection s)
   /\ translate (projection (run s es)) = translate (projection s)
   /\ clipAngle (projection (run s es)) = clipAngle (projection s)
   /\ precision (projection (run s es)) = precision (projection s)
   /\ width (run s es) = width s /\ height (run s es) = height s
   /\ svg_attrs (doc (run s es)) = svg_attrs (doc s))
  /\ (let side := width (setVariables w page) in
      scale (projection (run (ready w page) es)) = (side * 0.459)%float
      /\ translate (projection (run (ready w page) es)) = (side / 2, side / 2)%float
      /\ clipAngle (projection (run (ready w page) es)) = 90%float
      /\ precision (projection (run (ready w page) es)) = 1%float).
Proof.
  assert (H : forall s0,
            scale (projection (run s0 es)) = scale (projection s0)
            /\ translate (projection (run s0 es)) = translate (projection s0)
            /\ clipAngle (projection (run s0 es)) = clipAngle (projection s0)
            /\ precision (projection (run s0 es)) = precision (projection s0)
            /\ width (run s0 es) = width s0 /\ height (run s0 es) = height s0
            /\ svg_attrs (doc (run s0 es)) = svg_attrs (doc s0)).
  { induction es as [|e es IH]; intro s0; [repeat split|].
    rewrite run_cons.
    destruct (IH (step s0 e)) as (-> & -> & -> & -> & -> & -> & ->).
    destruct e; simpl step; rewrite ?status_success_eq, ?status_fail_eq;
      repeat split. }
  split; [apply H|].
  cbv zeta. destruct (H (ready w page)) as (-> & -> & -> & -> & _).
  repeat split.
Qed.

(** ** The drawing and the projection *)

Lemma get_put_same (name : string) (v : attr_value) (l : list (string * attr_value)) :
  get_attr name (put_attr name v l) = Some v.
Proof.
  induction l as [|[k w] l IH]; simpl.
  - now rewrite String.eqb_refl.
  - destruct (String.eqb k name) eqn:Hk; simpl; now rewrite Hk.
Qed.

Lemma matches_attr_d (sel : selector) (f : element -> attr_value) (el : element) :
  matches sel (attr "d" f el) = matches sel el.
Proof.
  destruct sel; simpl; trivial; unfold has_text; simpl attrs;
    now rewrite get_put_other by discriminate.
Qed.

Lemma matches_any_attr_d (group : list selector) (f : element -> attr_value)
  (el : element) :
  matches_any group (attr "d" f el) = matches_any group el.
Proof.
  unfold matches_any. induction group as [|sel group IH]; [reflexivity|].
  simpl. now rewrite matches_attr_d, IH.
Qed.

Lemma matches_any_bind (group : list selector) (g : geometry) (el : element) :
  matches_any group (bind g el) = matches_any group el.
Proof.
  unfold matches_any. induction group as [|sel group IH]; [reflexivity|].
  simpl. rewrite IH. destruct sel; reflexivity.
Qed.

Lemma redrawn_split (el : element) :
  matches_any redrawn el =
  matches_any layers el || matches_any [ByClass "trajectory"] el.
Proof. unfold redrawn, matches_any. apply existsb_app. Qed.

(** One element through the redraw of a successful poll. *)
Lemma redraw_up_to_date (p p' : D3.projection) (g : geometry) (el : element) :
  up_to_date p el ->
  up_to_date p'
    ((fun el => if matches_any [ByClass "trajectory"] el
                then attr "d" (fun el => PathData p' (datum el)) (bind g el)
                else el)
       (if matches_any layers el
        then attr "d" (fun el => PathData p' (datum el)) el else el)).
Proof.
  intro Hel. cbv beta.
  destruct (matches_any layers el) eqn:HL.
  - rewrite matches_any_attr_d.
    destruct (matches_any [ByClass "trajectory"] el) eqn:HT.
    + unfold up_to_date. simpl attrs. rewrite get_put_same. split; [reflexivity|].
      now rewrite matches_any_attr_d, matches_any_bind, matches_any_attr_d,
        redrawn_split, HL.
    + unfold up_to_date. simpl attrs. rewrite get_put_same. split; [reflexivity|].
      now rewrite matches_any_attr_d, redrawn_split, HL.
  - destruct (matches_any [ByClass "trajectory"] el) eqn:HT.
    + unfold up_to_date. simpl attrs. rewrite get_put_same. split; [reflexivity|].
      now rewrite matches_any_attr_d, matches_any_bind, redrawn_split, HL, HT.
    + unfold up_to_date in *. destruct (get_attr "d" (attrs el)); trivial.
      destruct Hel as [_ Hm]. rewrite redrawn_split, HL, HT in Hm. discriminate.
Qed.

Lemma Forall_insert_before (P : element -> Prop) (group : list selector)
  (el : element) (ns : list element) :
  P el -> Forall P ns -> Forall P (insert_before group el ns).
Proof.
  intros Hel Hns. induction Hns as [|n ns Hn Hns IH]; simpl.
  - now constructor.
  - destruct (matches_any group n); repeat constructor; trivial.
Qed.

Lemma world_loaded_nodes (s : state) :
  nodes (doc (world_loaded s)) =
  insert_before [ByClass "graticule"] (boundary_path (projection s))
    (insert_before [ByClass "graticule"] (land_path (projection s)) (nodes (doc s)))
  ++ [trail_path (projection s) (trajectory s)].
Proof. reflexivity. Qed.

Lemma status_success_up_to_date (s : state) (data : Response.t) :
  Forall (up_to_date (projection s)) (nodes (doc s)) ->
  Forall (up_to_date (projection (status_success data s)))
         (nodes (doc (status_success data s))).
Proof.
  intro H. rewrite status_success_eq. cbv zeta.
  unfold on_all. cbn [projection doc nodes]. rewrite map_map. apply Forall_map.
  eapply Forall_impl; [|exact H]. intros el Hel.
  now apply redraw_up_to_date with (p := projection s).
Qed.

Lemma status_fail_up_to_date (s : state) :
  Forall (up_to_date (projection s)) (nodes (doc s)) ->
  Forall (up_to_date (projection (status_fail s))) (nodes (doc (status_fail s))).
Proof. intro H. rewrite status_fail_eq. exact H. Qed.

Lemma world_loaded_up_to_date (s : state) :
  Forall (up_to_date (projection s)) (nodes (doc s)) ->
  Forall (up_to_date (projection (world_loaded s))) (nodes (doc (world_loaded s))).
Proof.
  intro H. rewrite world_loaded_nodes.
  change (projection (world_loaded s)) with (projection s).
  apply Forall_app. split.
  - repeat apply Forall_insert_before; trivial; now split.
  - repeat constructor.
Qed.

Lemma step_up_to_date (s : state) (e : event) :
  Forall (up_to_date (projection s)) (nodes (doc s)) ->
  Forall (up_to_date (projection (step s e))) (nodes (doc (step s e))).
Proof.
  intro H. destruct e.
  - now apply status_success_up_to_date.
  - now apply status_fail_up_to_date.
  - exact H.
  - now apply world_loaded_up_to_date.
  - exact H.
  - exact H.
  - exact H.
  - exact H.
  - exact H.
  - exact H.
  - exact H.
Qed.

(** What start-up leaves of the projection and of the drawing. *)
Lemma ready_projection (w : window) (page : document) :
  projection (ready w page) = start_projection w.
Proof. reflexivity. Qed.

Lemma ready_nodes (w : window) (page : document) :
  nodes (doc (ready w page)) =
  let p := start_projection w in
  [ new_element "svg" "defs";
    {| tag := "path"; parent := "defs";
       attrs := [("id", Text "sphere"); ("d", PathData p (Some Sphere))];
       datum := Some Sphere |};
    {| tag := "use"; parent := "svg";
       attrs := [("class", Text "stroke"); ("xlink:href", Text "#sphere")];
       datum := None |};
    {| tag := "use"; parent := "svg";
       attrs := [("class", Text "fill"); ("xlink:href", Text "#sphere")];
       datum := None |};
    {| tag := "path"; parent := "svg";
       attrs := [("class", Text "graticule"); ("d", PathData p (Some Graticule))];
       datum := Some Graticule |};
    marker_at p (0, 0)%float ].
Proof. reflexivity. Qed.

(** X9: the drawing never lags behind the projection.  In every state
    reached from start-up, each element that has a [d] attribute has the
    path of its own datum under the projection as it is now, rotation
    included. *)
Theorem drawing_follows_projection (w : window) (page : document) (es : list event) :
  Forall (up_to_date (projection (run (ready w page) es)))
         (nodes (doc (run (ready w page) es))).
Proof.
  assert (H0 : Forall (up_to_date (projection (ready w page)))
                 (nodes (doc (ready w page)))).
  { rewrite ready_nodes, ready_projection. cbv zeta. repeat constructor. }
  revert H0. generalize (ready w page). induction es as [|e es IH]; intros s Hs.
  - exact Hs.
  - rewrite run_cons. apply IH. now apply step_up_to_date.
Qed.

(** ** The trail that is drawn *)

Lemma redraw_shows_trail (p' : D3.projection) (tr : list point) (s' : state)
  (el : element) :
  projection s' = p' -> trajectory s' = tr ->
  shows_trail s'
    ((fun el => if matches_any [ByClass "trajectory"] el
                then attr "d" (fun el => PathData p' (datum el)) (bind (LineString tr) el)
                else el)
       (if matches_any layers el
        then attr "d" (fun el => PathData p' (datum el)) el else el)).
Proof.
  intros Hp Ht. cbv beta. unfold shows_trail.
  set (el1 := if matches_any layers el then _ else el).
  destruct (matches_any [ByClass "trajectory"] el1) eqn:HT.
  - rewrite matches_attr_d. simpl attrs. simpl datum. rewrite get_put_same, Hp, Ht.
    now destruct (matches _ _).
  - unfold matches_any in HT. simpl in HT. rewrite orb_false_r in HT.
    simpl matches. now rewrite HT.
Qed.

(** X10: the trail on the map is redrawn by successful polls only.  After
    one, every trajectory path has the line through the whole of
    [$trajectory], the new point included, under the new rotation.  A
    failed poll and a click on the stop button empty [$trajectory] and
    leave the drawing as it is, the old trail with it; the path the world
    file's callback appends holds all the points recorded until then. *)
Theorem trail_is_redrawn_on_success (s : state) (data : Response.t) :
  Forall (shows_trail (step s (StatusSuccess data)))
         (nodes (doc (step s (StatusSuccess data))))
  /\ nodes (doc (step s StatusFail)) = nodes (doc s)
  /\ nodes (doc (step s StopComputingClick)) = nodes (doc s)
  /\ trajectory (step s StatusFail) = []
  /\ trajectory (step s StopComputingClick) = []
  /\ last (nodes (doc (step s WorldLoaded))) (new_element "" "") =
       trail_path (projection s) (trajectory s).
Proof.
  repeat split.
  - simpl step. rewrite status_success_eq. cbv zeta. simpl nodes.
    unfold on_all. rewrite map_map. apply Forall_map.
    apply Forall_forall. intros el _. now apply redraw_shows_trail.
  - simpl step. now rewrite status_fail_eq.
  - simpl step. now rewrite status_fail_eq.
  - simpl step. rewrite world_loaded_nodes. apply last_last.
Qed.

(** ** Start-up *)

(** X11: start-up, for every window and page.  The drawing holds, in
    document order, [defs], the sphere path inside it, the two [use]
    elements, the graticule and the marker, all under the projection as
    configured; no land, boundary or trajectory path is there before the
    world file arrives.  The requests for the world file and for the status
    have been sent, in this order, and no timer is set.  The globals are
    zero, empty or false; the labels and the log are what the page came
    with; the frame is given the side of the square as its height. *)
Theorem start_up (w : window) (page : document) :
  let s := ready w page in
  nodes (doc s) =
    [ new_element "svg" "defs";
      {| tag := "path"; parent := "defs";
         attrs := [("id", Text "sphere");
                   ("d", PathData (start_projection w) (Some Sphere))];
         datum := Some Sphere |};
      {| tag := "use"; parent := "svg";
         attrs := [("class", Text "stroke"); ("xlink:href", Text "#sphere")];
         datum := None |};
      {| tag := "use"; parent := "svg";
         attrs := [("class", Text "fill"); ("xlink:href", Text "#sphere")];
         datum := None |};
      {| tag := "path"; parent := "svg";
         attrs := [("class", Text "graticule");
                   ("d", PathData (start_projection w) (Some Graticule))];
         datum := Some Graticule |};
      marker_at (start_projection w) (0, 0)%float ]
  /\ projection s = start_projection w
  /\ out s = [ConsoleLog "Document Loaded"; Get "world-50m.json";
              Get (href w ++ "?status")%string]
  /\ (lon s, lat s, az s, alt s) = (0, 0, 0, 0)%float
  /\ time s = "" /\ stop_flag s = false /\ trajectory s = [] /\ loop_i s = None
  /\ labels s = (text_lon page, text_lat page, text_azi page, text_alt page,
                 text_time page)
  /\ log_children (doc s) = log_children page
  /\ frame_height (doc s) = Some (to_string (width s) ++ "px")%string.
Proof. cbv zeta. rewrite ready_nodes. repeat split. Qed.

(** ** The layout *)

Lemma SFltb_asym (a b : spec_float) : SFltb a b = true -> SFltb b a = false.
Proof.
  unfold SFltb, SFcompare.
  destruct a as [sa|sa| |sa ma ea], b as [sb|sb| |sb mb eb];
    try destruct sa; try destruct sb; try discriminate; trivial.
  - rewrite (Z.compare_antisym ea eb).
    change (Pos.compare_cont Eq mb ma) with (Pos.compare_cont (CompOpp Eq) mb ma).
    rewrite <- (Pos.compare_cont_antisym ma mb Eq).
    destruct (ea ?= eb)%Z; simpl; try discriminate; trivial.
    destruct (Pos.compare_cont Eq ma mb); simpl; try discriminate; trivial.
  - rewrite (Z.compare_antisym ea eb).
    change (Pos.compare_cont Eq mb ma) with (Pos.compare_cont (CompOpp Eq) mb ma).
    rewrite <- (Pos.compare_cont_antisym ma mb Eq).
    destruct (ea ?= eb)%Z; simpl; try discriminate; trivial.
    destruct (Pos.compare_cont Eq ma mb); simpl; try discriminate; trivial.
Qed.

Lemma ltb_asym (x y : number) : (x <? y)%float = true -> (y <? x)%float = false.
Proof. rewrite !ltb_spec. apply SFltb_asym. Qed.

(** X12: the two tests of [setVariables] on the shape of the window.  In a
    window wider than high the side of the square is 45% of the width and
    the [.ui] element keeps its width; in one higher than wide the side is
    90% of the width and [.ui] is made 100% wide; when neither dimension is
    less than the other (a square window, or a dimension that is NaN) the
    side is 90% of the width and [.ui] keeps its width. *)
Theorem layout_follows_window_shape (w : window) (page : document) :
  let s := setVariables w page in
  ((outerHeight w <? innerWidth w)%float = true ->
     width s = (0.45 * innerWidth w)%float /\ ui_width (doc s) = ui_width page)
  /\ ((innerWidth w <? outerHeight w)%float = true ->
        width s = (0.9 * innerWidth w)%float /\ ui_width (doc s) = Some "100%")
  /\ ((outerHeight w <? innerWidth w)%float = false ->
      (innerWidth w <? outerHeight w)%float = false ->
        width s = (0.9 * innerWidth w)%float /\ ui_width (doc s) = ui_width page).
Proof.
  cbv zeta. unfold setVariables. cbn [width doc ui_width set_svg_attrs set_nodes set_ui_width].
  split; [|split].
  - intro H. rewrite H, (ltb_asym _ _ H). now split.
  - intro H. rewrite H, (ltb_asym _ _ H). now split.
  - intros H H'. rewrite H, H'. now split.
Qed.

Lemma layout_follows_window_shape_witness :
  width (setVariables sample_window empty_page) = (0.45 * 1000)%float
  /\ ui_width (doc (setVariables
        {| innerWidth := 600; outerHeight := 900; href := "" |} empty_page)) = Some "100%"
  /\ ui_width (doc (setVariables
        {| innerWidth := 800; outerHeight := 800; href := "" |} empty_page)) = None.
Proof.
  split; [|split].
  - exact (proj1 (proj1 (layout_follows_window_shape sample_window empty_page) eq_refl)).
  - exact (proj2 (proj1 (proj2 (layout_follows_window_shape
             {| innerWidth := 600; outerHeight := 900; href := "" |} empty_page))
             eq_refl)).
  - exact (proj2 (proj2 (proj2 (layout_follows_window_shape
             {| innerWidth := 800; outerHeight := 800; href := "" |} empty_page))
             eq_refl eq_refl)).
Defined.

(** ** The marker and the data join *)

Lemma bind_first_positions (group : list selector) (g : geometry) (ns : list element) :
  map position (filter is_circle (bind_first group g ns)) =
  map position (filter is_circle ns)
  /\ length (bind_first group g ns) = length ns.
Proof.
  induction ns as [|n ns [IH IH']]; [now split|].
  simpl. destruct (matches_any group n).
  - split; [|reflexivity]. simpl.
    change (is_circle (bind g n)) with (is_circle n).
    now destruct (is_circle n).
  - simpl. rewrite IH'. split; [|reflexivity].
    destruct (is_circle n); simpl; now rewrite IH.
Qed.

(** X13: [drawSat] never draws a second marker.  On a drawing without a
    circle it appends one, placed where the projection puts [[$lon, $lat]];
    on a drawing that has circles it appends nothing and changes no [cx] or
    [cy]: the first circle only takes the new datum. *)
Theorem drawSat_draws_one_marker (s : state) :
  (circles s = [] ->
     nodes (doc (drawSat s)) =
       nodes (doc s) ++ [marker_at (projection s) (lon s, lat s)]
     /\ circles (drawSat s) = [marker_at (projection s) (lon s, lat s)])
  /\ (circles s <> [] ->
        map position (circles (drawSat s)) = map position (circles s)
        /\ length (nodes (doc (drawSat s))) = length (nodes (doc s))).
Proof.
  unfold circles, drawSat.
  change (selectAll [ByTag "circle"] (nodes (doc s)))
    with (filter is_circle (nodes (doc s))).
  destruct (filter is_circle (nodes (doc s))) as [|c cs] eqn:Hc; split;
    try (intro H; now contradiction H); try discriminate; intros _.
  - cbn [on_nodes on_doc set_doc doc set_nodes nodes]. split; [reflexivity|].
    rewrite filter_app, Hc. reflexivity.
  - cbn [on_nodes on_doc set_doc doc set_nodes nodes].
    destruct (bind_first_positions [ByTag "circle"] (Position (lon s, lat s))
                (nodes (doc s))) as [-> ->].
    now rewrite Hc.
Qed.

Lemma drawSat_draws_one_marker_witness :
  circles (drawSat (drawMap (setVariables sample_window empty_page))) =
    [marker_at (projection (drawMap (setVariables sample_window empty_page)))
       (lon (drawMap (setVariables sample_window empty_page)),
        lat (drawMap (setVariables sample_window empty_page)))]
  /\ length (nodes (doc (drawSat (ready sample_window empty_page)))) =
     length (nodes (doc (ready sample_window empty_page))).
Proof.
  split.
  - exact (proj2 (proj1 (drawSat_draws_one_marker
             (drawMap (setVariables sample_window empty_page))) eq_refl)).
  - refine (proj2 (proj2 (drawSat_draws_one_marker (ready sample_window empty_page)) _)).
    rewrite ready_circles. discriminate.
Defined.

(** ** The log function *)

(** X14: [appendLog] touches the log container and the global counter [i]
    and nothing else.  It leaves [i] at the length of the list; for the
    empty list the log is unchanged and [i] is 0.  The satellite's
    globals, labels and projection, the trajectory, the stop flag, the
    drawing and the effects are as before. *)
Theorem appendLog_touches_log_only (log : list string) (s : state) :
  let s' := appendLog log s in
  loop_i s' = Some (length log)
  /\ log_children (doc s') = rev (map paragraph log) ++ log_children (doc s)
  /\ log_children (doc (appendLog [] s)) = log_children (doc s)
  /\ loop_i (appendLog [] s) = Some 0
  /\ view s' = view s /\ trajectory s' = trajectory s
  /\ stop_flag s' = stop_flag s /\ nodes (doc s') = nodes (doc s)
  /\ out s' = out s.
Proof. cbv zeta. rewrite appendLog_eq. repeat split. Qed.

(** ** The layers the world file adds *)

Lemma insert_before_at (group : list selector) (el n : element)
  (above below : list element) :
  Forall (fun x => matches_any group x = false) above ->
  matches_any group n = true ->
  insert_before group el (above ++ n :: below) = above ++ el :: n :: below.
Proof.
  intros Ha Hn. induction Ha as [|a above Hx Ha IH]; simpl.
  - now rewrite Hn.
  - now rewrite Hx, IH.
Qed.

Lemma insert_before_none (group : list selector) (el : element) (ns : list element) :
  Forall (fun x => matches_any group x = false) ns ->
  insert_before group el ns = ns ++ [el].
Proof.
  intro Hns. induction Hns as [|n ns Hn Hns IH]; simpl; [reflexivity|].
  now rewrite Hn, IH.
Qed.

(** X15: the callback of the world file puts the land and then the country
    boundaries right in front of the first graticule of the drawing, land
    first, and the trajectory path at the very end, above everything, the
    marker included; the order of the elements that were there is kept.
    In a drawing without a graticule all three go to the end. *)
Theorem world_file_layers (s : state) (above below : list element) (g : element) :
  let p := projection s in
  let grat := [ByClass "graticule"] in
  (nodes (doc s) = above ++ g :: below ->
   Forall (fun x => matches_any grat x = false) above ->
   matches_any grat g = true ->
   nodes (doc (step s WorldLoaded)) =
     above ++ [land_path p; boundary_path p; g] ++ below
     ++ [trail_path p (trajectory s)])
  /\ (Forall (fun x => matches_any grat x = false) (nodes (doc s)) ->
      nodes (doc (step s WorldLoaded)) =
        nodes (doc s) ++ [land_path p; boundary_path p; trail_path p (trajectory s)]).
Proof.
  cbv zeta. simpl step. rewrite world_loaded_nodes. split.
  - intros -> Ha Hg. rewrite (insert_before_at _ _ _ _ _ Ha Hg).
    change (above ++ land_path (projection s) :: g :: below)
      with (above ++ [land_path (projection s)] ++ g :: below).
    rewrite app_assoc, insert_before_at; trivial.
    + rewrite <- !app_assoc. reflexivity.
    + apply Forall_app. split; trivial. now repeat constructor.
  - intro Hns. rewrite (insert_before_none _ _ _ Hns), insert_before_none.
    + rewrite <- !app_assoc. reflexivity.
    + apply Forall_app. split; trivial. now repeat constructor.
Qed.

Lemma world_file_layers_witness :
  map (fun el => get_attr "class" (attrs el))
      (nodes (doc (step (ready sample_window empty_page) WorldLoaded))) =
    [None; None; Some (Text "stroke"); Some (Text "fill"); Some (Text "land");
     Some (Text "boundary"); Some (Text "graticule"); Some (Text "satellite");
     Some (Text "trajectory")]
  /\ nodes (doc (step (setVariables sample_window empty_page) WorldLoaded)) =
       [land_path (start_projection sample_window);
        boundary_path (start_projection sample_window);
        trail_path (start_projection sample_window) []].
Proof.
  split.
  - rewrite (proj1 (world_file_layers (ready sample_window empty_page)
                      (firstn 4 (nodes (doc (ready sample_window empty_page))))
                      [marker_at (start_projection sample_window) (0, 0)%float]
                      {| tag := "path"; parent := "svg";
                         attrs := [("class", Text "graticule");
                                   ("d", PathData (start_projection sample_window)
                                           (Some Graticule))];
                         datum := Some Graticule |})).
    + rewrite ready_nodes. reflexivity.
    + rewrite ready_nodes. reflexivity.
    + rewrite ready_nodes. repeat constructor.
    + reflexivity.
  - exact (proj2 (world_file_layers (setVariables sample_window empty_page) [] []
                    (new_element "" "")) (Forall_nil _)).
Defined.


(* ================================================================== *)
(** * Answers without a log array *)
(* ================================================================== *)

Lemma status_callback_with_log (a : Answer.t) (l : list string) (s : state) :
  Answer.log a = Some l ->
  status_callback a s = Returned (status_success (with_log a l) s).
Proof. intro H. unfold status_callback. rewrite H. reflexivity. Qed.

Lemma status_callback_without_log (a : Answer.t) (s : state) :
  Answer.log a = None ->
  status_callback a s =
  Threw {| win := win s; width := width s; height := height s;
           lon := parseFloat (Answer.lon a); lat := parseFloat (Answer.lat a);
           az := parseFloat (Answer.az a); alt := parseFloat (Answer.alt a);
           time := Answer.time a; stop_flag := stop_flag s;
           trajectory := trajectory s ++
                         [(parseFloat (Answer.lon a), parseFloat (Answer.lat a))];
           loop_i := loop_i s; projection := projection s; doc := doc s;
           out := out s |}.
Proof. intro H. unfold status_callback. rewrite H. reflexivity. Qed.

(** With a bad azimuth and a log array the callback returns, but the point
    it appends is [[20, 10]]; with a bad longitude and no log array it does
    not return at all. *)
Lemma unparseable_still_completes_fails :
  ~ unparseable_still_completes bad_azimuth_answer (ready sample_window empty_page)
  /\ ~ unparseable_still_completes no_log_answer (ready sample_window empty_page).
Proof.
  split; intro H.
  - destruct H as (s' & p & Hret & _ & Hp & Hnan).
    + right; right; left. vm_compute. reflexivity.
    + rewrite (status_callback_with_log bad_azimuth_answer [] _ eq_refl) in Hret.
      injection Hret as <-. rewrite status_success_trajectory in Hp.
      apply app_inv_head in Hp. injection Hp as <-.
      vm_compute in Hnan. discriminate Hnan.
  - destruct H as (s' & p & Hret & _).
    + left. vm_compute. reflexivity.
    + rewrite (status_callback_without_log no_log_answer _ eq_refl) in Hret.
      discriminate Hret.
Qed.

(** C10: on an answer that has its log array, a field among [lon], [lat],
    [az] and [alt] that [parseFloat] cannot read does not stop the success
    callback: it returns, the timer is set from [interval], one point is
    appended, the global of that field is NaN and its label shows "NaN".
    The point appended is [[lon, lat]], so it holds a NaN exactly when it
    is [lon] or [lat] that cannot be read.  On an answer without a log
    array the callback throws in [appendLog]: the point is appended, and
    no label, rotation or timer follows. *)
Theorem unparseable_field_still_completes (a : Answer.t) (s : state) :
  (forall l, Answer.log a = Some l ->
     let s' := status_success (with_log a l) s in
     status_callback a s = Returned s'
     /\ out s' = out s ++ [SetTimeout (1000 * Answer.interval a)]
     /\ trajectory s' = trajectory s ++ [(lon s', lat s')]
     /\ holds_NaN (lon s', lat s') =
          isNaN (parseFloat (Answer.lon a)) || isNaN (parseFloat (Answer.lat a))
     /\ (unparseable (Answer.lon a) ->
           isNaN (lon s') = true /\ text_lon (doc s') = "NaN"
           /\ holds_NaN (lon s', lat s') = true)
     /\ (unparseable (Answer.lat a) ->
           isNaN (lat s') = true /\ text_lat (doc s') = "NaN"
           /\ holds_NaN (lon s', lat s') = true)
     /\ (unparseable (Answer.az a) ->
           isNaN (az s') = true /\ text_azi (doc s') = "NaN")
     /\ (unparseable (Answer.alt a) ->
           isNaN (alt s') = true /\ text_alt (doc s') = "NaN"))
  /\ (Answer.log a = None ->
      exists s', status_callback a s = Threw s'
                 /\ trajectory s' =
                      trajectory s ++
                      [(parseFloat (Answer.lon a), parseFloat (Answer.lat a))]
                 /\ out s' = out s /\ labels s' = labels s
                 /\ projection s' = projection s
                 /\ log_children (doc s') = log_children (doc s)).
Proof.
  split.
  - intros l Hl s'. split; [now apply status_callback_with_log|].
    exact (unparseable_field_becomes_NaN (with_log a l) s).
  - intro Hl. eexists. split; [now apply status_callback_without_log|].
    repeat split.
Qed.

(** An answer with a log array, none of whose four fields is a number. *)
Definition unreadable_answer : Answer.t :=
  {| Answer.lon := JStr "east"; Answer.lat := JNull;
     Answer.az := JUndefined; Answer.alt := JStr "";
     Answer.time := "2016-03-01 12:00:00"; Answer.interval := 5;
     Answer.log := Some ["a"] |}.

Lemma unparseable_field_still_completes_witness :
  (exists s', status_callback unreadable_answer tracking_state = Returned s'
              /\ labels s' = ("NaN", "NaN", "NaN", "NaN", "2016-03-01 12:00:00 UTC"))
  /\ (exists s', status_callback no_log_answer tracking_state = Threw s'
                 /\ out s' = out tracking_state).
Proof.
  split.
  - destruct (proj1 (unparseable_field_still_completes unreadable_answer tracking_state)
                ["a"] eq_refl) as (Hret & _ & _ & _ & H1 & H2 & H3 & H4).
    eexists. split; [exact Hret|].
    destruct H1 as (_ & H1 & _); [vm_compute; reflexivity|].
    destruct H2 as (_ & H2 & _); [vm_compute; reflexivity|].
    destruct H3 as (_ & H3); [vm_compute; reflexivity|].
    destruct H4 as (_ & H4); [vm_compute; reflexivity|].
    unfold labels. rewrite H1, H2, H3, H4.
    destruct (status_success_texts (with_log unreadable_answer ["a"]) tracking_state)
      as (_ & _ & _ & _ & ->).
    reflexivity.
  - destruct (proj2 (unparseable_field_still_completes no_log_answer tracking_state)
                eq_refl) as (s' & Hthrew & _ & Hout & _).
    exists s'. now split.
Defined.

(** X2: the poll loop goes on as long as the answers have the shape of the
    interface.  Over such events every answer to a status request, good or
    bad, sets exactly one timer and nothing else sets one, and every timer
    that fires sends exactly one status request and nothing else sends
    one, whatever [stop_flag] is.  The success callback on an answer with
    a log array returns with its timer set; on an answer without one it
    throws before [setTimeout], no timer is set and nothing will poll
    again. *)
Theorem poll_loop_timers (s : state) (es : list event) (a : Answer.t) :
  length (timers (out (run s es))) =
    length (timers (out s)) + length (filter is_answer es)
  /\ length (status_requests (href (win s)) (out (run s es))) =
       length (status_requests (href (win s)) (out s)) + length (filter is_timeout es)
  /\ (forall l, Answer.log a = Some l ->
        status_callback a s = Returned (step s (StatusSuccess (with_log a l)))
        /\ timers (out (step s (StatusSuccess (with_log a l)))) =
             timers (out s) ++ [(1000 * Answer.interval a)%float])
  /\ (Answer.log a = None ->
        exists s', status_callback a s = Threw s'
                   /\ timers (out s') = timers (out s)
                   /\ out s' = out s).
Proof.
  destruct (run_timers_and_requests s es) as [Ht Hr].
  split; [exact Ht|]. split; [exact Hr|]. split.
  - intros l Hl. split; [now apply status_callback_with_log|].
    simpl step. rewrite status_success_out, timers_app. reflexivity.
  - intro Hl. eexists. split; [now apply status_callback_without_log|].
    split; reflexivity.
Qed.

Lemma poll_loop_timers_witness :
  timers (out (step tracking_state (StatusSuccess (with_log unreadable_answer ["a"])))) =
    timers (out tracking_state) ++ [(1000 * 5)%float]
  /\ (exists s', status_callback no_log_answer tracking_state = Threw s'
                 /\ timers (out s') = timers (out tracking_state)).
Proof.
  pose proof (poll_loop_timers tracking_state [] unreadable_answer) as (_ & _ & H & _).
  pose proof (poll_loop_timers tracking_state [] no_log_answer) as (_ & _ & _ & H').
  split.
  - exact (proj2 (H ["a"] eq_refl)).
  - destruct (H' eq_refl) as (s' & Hthrew & Ht & _). exists s'. now split.
Defined.
